(** * FaceMaskDetector: a shallow embedding of
      [workplace_screening/detect_facemask/detect_facemask.py]

    The Python class keeps its results in attributes of [self], prints to
    standard output and may raise; the embedding threads an explicit world
    (the object and the printed lines) through a small state-and-exception
    monad.  The scalar returned by the inference engine is a numpy scalar
    whose precision the source does not fix, so the arithmetic is taken
    through the interface [Scalar], with exact rationals and IEEE binary64
    floats as instances. *)

From Stdlib Require Import List String Ascii Bool ZArith QArith Lia.
From Stdlib Require PrimFloat Uint63.
Import ListNotations.

(** ** Scalars *)

(** What the source does with numbers: decimal literals ([1], [0.995],
    [0.975], [0.9]), the subtraction [1 - x] and the comparison [x >= y]. *)
Class Scalar (num : Type) : Type := {
  lit : Q -> num;
  sub : num -> num -> num;
  geb : num -> num -> bool
}.

(** The order laws the threshold claims rest on: [>=] is a preorder and
    [1 - x] reverses it.  Exact arithmetic has them; so has correctly rounded
    IEEE arithmetic on the values that are not NaN. *)
Class ScalarLaws {num : Type} (SC : Scalar num) : Prop := {
  geb_refl : forall x : num, geb x x = true;
  geb_trans : forall x y z : num,
      geb x y = true -> geb y z = true -> geb x z = true;
  one_minus_antitone : forall p q : num,
      geb q p = true -> geb (sub (lit 1) p) (sub (lit 1) q) = true;
  one_minus_zero : geb (lit 1) (sub (lit 1) (lit 0)) = true;
  one_minus_one : geb (sub (lit 1) (lit 1)) (lit 0) = true
}.

Module QScalar.

#[export] Instance q_scalar : Scalar Q := {
  lit := fun q => q;
  sub := Qminus;
  geb := fun x y => Qle_bool y x
}.

End QScalar.

Module FloatScalar.

Import PrimFloat.

Definition of_pos (p : positive) : float := of_uint63 (Uint63.of_pos p).

Definition of_Z (z : Z) : float :=
  match z with
  | Z0 => zero
  | Zpos p => of_pos p
  | Zneg p => opp (of_pos p)
  end.

(** A decimal literal is the correctly rounded quotient of its numerator and
    denominator (both exactly representable for the literals of the source). *)
#[export] Instance float_scalar : Scalar float := {
  lit := fun q => div (of_Z (Qnum q)) (of_pos (Qden q));
  sub := PrimFloat.sub;
  geb := fun x y => leb y x
}.

End FloatScalar.

(** ** Strings *)

Open Scope string_scope.

(** [hay.startswith(needle)] *)
Fixpoint starts_with (needle hay : string) : bool :=
  match needle, hay with
  | EmptyString, _ => true
  | String _ _, EmptyString => false
  | String a needle', String b hay' => Ascii.eqb a b && starts_with needle' hay'
  end.

(** Python's [needle in hay] on [str]: [needle] occurs as a substring. *)
Fixpoint str_in (needle hay : string) : bool :=
  if starts_with needle hay then true
  else match hay with
       | EmptyString => false
       | String _ rest => str_in needle rest
       end.

(** ['-'*100] *)
Fixpoint str_repeat (s : string) (n : nat) : string :=
  match n with
  | O => EmptyString
  | S k => s ++ str_repeat s k
  end.

(** ** Exceptions, outcomes and the monad *)

Inductive exn : Type :=
| IndexError      (* [xs[0]] on an empty sequence *)
| ValueError      (* [set_tensor]/[get_tensor] on a tensor index that does not fit *)
| RuntimeError    (* the engine fails in [invoke] *)
| ExternalError (code : nat). (* raised by a collaborator of the base class *)

Inductive outcome (A : Type) : Type :=
| Normal (a : A)
| Raise (e : exn).
Arguments Normal {A} a.
Arguments Raise {A} e.

(** A [for] body either falls through to the next item or executes [return]. *)
Inductive flow (R : Type) : Type :=
| Next
| Return (r : R).
Arguments Next {R}.
Arguments Return {R} r.

Section Monad.

Variable W : Type.

(** A computation on the world [W]: what was mutated before an exception
    stays mutated. *)
Definition M (A : Type) : Type := W -> outcome A * W.

Definition ret {A} (a : A) : M A := fun w => (Normal a, w).

Definition raise {A} (e : exn) : M A := fun w => (Raise e, w).

Definition bind {A B} (m : M A) (k : A -> M B) : M B :=
  fun w => match m w with
           | (Normal a, w') => k a w'
           | (Raise e, w') => (Raise e, w')
           end.

Definition get : M W := fun w => (Normal w, w).

Definition modify (f : W -> W) : M unit := fun w => (Normal tt, f w).

(** [for x in xs: body], where [body] may [return] out of the enclosing
    function.  [None] is Python's falling off the end of the loop. *)
Fixpoint for_in {A R} (xs : list A) (body : A -> M (flow R)) : M (option R) :=
  match xs with
  | [] => ret None
  | x :: rest =>
      bind (body x) (fun c =>
        match c with
        | Next => for_in rest body
        | Return r => ret (Some r)
        end)
  end.

End Monad.

Arguments ret {W A} a.
Arguments raise {W A} e.
Arguments bind {W A B} m k.
Arguments get {W}.
Arguments modify {W} f.
Arguments for_in {W A R} xs body.

Declare Scope py_scope.
Delimit Scope py_scope with py.
Notation "x <- m ;; k" := (bind m (fun x => k))
  (at level 61, m at next level, right associativity) : py_scope.
Notation "m ;; k" := (bind m (fun _ => k))
  (at level 61, right associativity) : py_scope.
Open Scope py_scope.

(** [xs[0]] *)
Definition item0 {W A} (xs : list A) : M W A :=
  match xs with
  | [] => raise IndexError
  | x :: _ => ret x
  end.

(** A keyword argument with a default: [None] when the caller omits it. *)
Definition kwarg {A} (given : option A) (default : A) : A :=
  match given with
  | Some a => a
  | None => default
  end.

(** ** The detector *)

(** An RGB triple as the source writes it. *)
Definition color : Type := (Z * Z * Z)%type.

(** One dictionary of [get_input_details()] / [get_output_details()]; the
    source reads its ['index'] entry only. *)
Record TensorDetail : Type := { index : nat }.

Section Detector.

Context {num : Type} {SC : Scalar num}.

(** A cropped face, as [detect_faces] of the base class leaves it. *)
Context {FaceImage : Type}.

(** The attributes of the base class [ImageAndVideo] other than [faces]
    (frame, boxes, video stream). *)
Context {Base : Type}.

(** *** The inference engine

    [tf.lite.Interpreter] is outside the repository.  It is taken as a pair
    of tensor buffers around an opaque forward function: [set_tensor] fills
    the input buffer, [invoke] runs the network on it and fills the output
    buffer, [get_tensor] reads the output buffer, which the source indexes
    as a matrix ([mask_prob[0][0]]). *)
Record Interpreter : Type := {
  network : FaceImage -> option (list (list num));
  input_index : nat;
  output_index : nat;
  input_tensor : option FaceImage;
  output_tensor : option (list (list num))
}.

Definition set_tensor (i : nat) (x : FaceImage) (it : Interpreter)
  : outcome Interpreter :=
  if Nat.eqb i (input_index it)
  then Normal {| network := network it;
                 input_index := input_index it;
                 output_index := output_index it;
                 input_tensor := Some x;
                 output_tensor := output_tensor it |}
  else Raise ValueError.

Definition invoke (it : Interpreter) : outcome Interpreter :=
  match input_tensor it with
  | None => Raise RuntimeError
  | Some x =>
      match network it x with
      | None => Raise RuntimeError
      | Some y => Normal {| network := network it;
                            input_index := input_index it;
                            output_index := output_index it;
                            input_tensor := input_tensor it;
                            output_tensor := Some y |}
      end
  end.

Definition get_tensor (i : nat) (it : Interpreter)
  : outcome (list (list num)) :=
  if Nat.eqb i (output_index it)
  then match output_tensor it with
       | Some y => Normal y
       | None => Raise ValueError
       end
  else Raise ValueError.

Definition get_input_details (it : Interpreter) : list TensorDetail :=
  [ {| index := input_index it |} ].

Definition get_output_details (it : Interpreter) : list TensorDetail :=
  [ {| index := output_index it |} ].

(** *** The object and the world *)

Record FaceMaskDetector : Type := {
  base : Base;
  faces : list FaceImage;
  labels : list string;
  colors : list color;
  mask_detect_model_location : string;
  mask_model : Interpreter;
  input_details : list TensorDetail;
  output_details : list TensorDetail
}.

(** A line on standard output: a plain string, or the f-string of line 62,
    a fixed text followed by the formatted scalar. *)
Inductive out_line : Type :=
| Text (s : string)
| Fmt (s : string) (x : num).

Record World : Type := {
  self : FaceMaskDetector;
  stdout : list out_line
}.

Definition on_self (f : FaceMaskDetector -> FaceMaskDetector) (w : World) : World :=
  {| self := f (self w); stdout := stdout w |}.

Definition with_base (b : Base) (o : FaceMaskDetector) : FaceMaskDetector :=
  {| base := b; faces := faces o; labels := labels o; colors := colors o;
     mask_detect_model_location := mask_detect_model_location o;
     mask_model := mask_model o;
     input_details := input_details o; output_details := output_details o |}.

Definition with_faces (fs : list FaceImage) (o : FaceMaskDetector) : FaceMaskDetector :=
  {| base := base o; faces := fs; labels := labels o; colors := colors o;
     mask_detect_model_location := mask_detect_model_location o;
     mask_model := mask_model o;
     input_details := input_details o; output_details := output_details o |}.

Definition with_labels (ls : list string) (o : FaceMaskDetector) : FaceMaskDetector :=
  {| base := base o; faces := faces o; labels := ls; colors := colors o;
     mask_detect_model_location := mask_detect_model_location o;
     mask_model := mask_model o;
     input_details := input_details o; output_details := output_details o |}.

Definition with_colors (cs : list color) (o : FaceMaskDetector) : FaceMaskDetector :=
  {| base := base o; faces := faces o; labels := labels o; colors := cs;
     mask_detect_model_location := mask_detect_model_location o;
     mask_model := mask_model o;
     input_details := input_details o; output_details := output_details o |}.

Definition with_mask_model (it : Interpreter) (o : FaceMaskDetector) : FaceMaskDetector :=
  {| base := base o; faces := faces o; labels := labels o; colors := colors o;
     mask_detect_model_location := mask_detect_model_location o;
     mask_model := it;
     input_details := input_details o; output_details := output_details o |}.

(** [print(x)] *)
Definition print (l : out_line) : M World unit :=
  modify (fun w => {| self := self w; stdout := stdout w ++ [l] |}).

(** [self.attr] *)
Definition attr {A} (f : FaceMaskDetector -> A) : M World A :=
  fun w => (Normal (f (self w)), w).

(** [self.mask_model.method(...)] for a method that mutates the engine *)
Definition mask_model_do (f : Interpreter -> outcome Interpreter) : M World unit :=
  fun w => match f (mask_model (self w)) with
           | Normal it => (Normal tt, on_self (with_mask_model it) w)
           | Raise e => (Raise e, w)
           end.

(** [self.mask_model.method(...)] for a method that only reads it *)
Definition mask_model_read {A} (f : Interpreter -> outcome A) : M World A :=
  fun w => (f (mask_model (self w)), w).

(** [__init__], after [tf.lite.Interpreter(model_path=...)] and
    [allocate_tensors()] produced the engine [it].  The base class supplies
    the other attributes. *)
Definition init (b : Base) (fs : list FaceImage) (ls : list string)
    (cs : list color) (mask_detect_model : string) (it : Interpreter)
  : FaceMaskDetector :=
  {| base := b; faces := fs; labels := ls; colors := cs;
     mask_detect_model_location := mask_detect_model;
     mask_model := it;
     input_details := get_input_details it;
     output_details := get_output_details it |}.

(** *** [detect_facemask] *)

(** Names for the literals of lines 64 and 66. *)
Definition WEARING_MASK : string := "Wearing Mask".
Definition NO_MASK : string := "No Mask".
Definition DARK_GREEN : color := (0, 102, 0)%Z.
Definition RED_ORANGE : color := (33, 33, 183)%Z.

(** The body of the loop of lines 54-76, for one [face]. *)
Definition detect_facemask_body (mask_probability : num) (verbose : bool)
    (face : FaceImage) : M World (flow bool) :=
  ind <- attr input_details ;;
  d <- item0 ind ;;
  mask_model_do (set_tensor (index d) face) ;;
  mask_model_do invoke ;;
  outd <- attr output_details ;;
  d' <- item0 outd ;;
  mask_prob <- mask_model_read (get_tensor (index d')) ;;
  (if verbose
   then print (Text (str_repeat "-" 100)) ;;
        row <- item0 mask_prob ;;
        x <- item0 row ;;
        print (Fmt "Probability of wearing mask: " (sub (lit 1) x))
   else ret tt) ;;
  row <- item0 mask_prob ;;
  x <- item0 row ;;
  let label := if geb (sub (lit 1) x) mask_probability
               then "Wearing Mask" else "No Mask" in
  let color := if str_in "Wearing Mask" label
               then (0, 102, 0)%Z else (33, 33, 183)%Z in
  print (Text label) ;;
  modify (on_self (fun o => with_labels (labels o ++ [label]) o)) ;;
  modify (on_self (fun o => with_colors (colors o ++ [color]) o)) ;;
  if str_in "Wearing Mask" label
  then ret (Return true)
  else ret (Return false).

Definition detect_facemask (mask_probability : option num)
    (verbose : option bool) : M World (option bool) :=
  let mask_probability := kwarg mask_probability (lit 0.995) in
  let verbose := kwarg verbose false in
  modify (on_self (with_labels [])) ;;
  modify (on_self (with_colors [])) ;;
  fs <- attr faces ;;
  for_in fs (detect_facemask_body mask_probability verbose).

(** *** Collaborators of the base class

    [core/core.py] is not among the sources.  Its methods are parameters,
    typed by what they may touch. *)

(** [capture_frame_and_load_image] of the base class grabs a frame into the
    base attributes. *)
Variable capture_frame_and_load_image : Base -> outcome unit * Base.

(** [detect_faces] of the base class yields the ordered cropped faces of the
    current frame, which become [self.faces]. *)
Variable detect_faces : num -> Base -> outcome (list FaceImage) * Base.

(** [draw_boxes_around_faces] of the base class is handed the labels and
    colors and draws on the frame. *)
Variable draw_boxes_around_faces :
  list string -> list color -> Base -> outcome unit * Base.

(** The video stream and window calls of the continuous-capture variant:
    [self.vs.read], [imutils.resize], [load_image_from_frame], [cv2.waitKey],
    [cv2.imshow] of the converted image, [cv2.destroyAllWindows]. *)
Context {Frame : Type}.
Variable vs_read : Base -> outcome Frame * Base.
Variable resize : Frame -> Z -> outcome Frame.
Variable load_image_from_frame : Frame -> Base -> outcome unit * Base.
Variable waitKey : Z -> Base -> outcome Z * Base.
Variable imshow_image : string -> Base -> outcome unit * Base.
Variable destroyAllWindows : Base -> outcome unit * Base.

(** [self.method(...)] for a method of the base class *)
Definition base_do {A} (f : Base -> outcome A * Base) : M World A :=
  fun w => let (r, b) := f (base (self w)) in (r, on_self (with_base b) w).

(** [self.detect_faces(probability=...)] *)
Definition self_detect_faces (probability : num) : M World unit :=
  fs <- base_do (detect_faces probability) ;;
  modify (on_self (with_faces fs)).

(** [self.draw_boxes_around_faces()] *)
Definition self_draw_boxes_around_faces : M World unit :=
  ls <- attr labels ;;
  cs <- attr colors ;;
  base_do (draw_boxes_around_faces ls cs).

(** A pure call that may raise *)
Definition lift {A} (r : outcome A) : M World A := fun w => (r, w).

(** *** [capture_frame_and_detect_facemask] *)

Definition capture_frame_and_detect_facemask
    (mask_probability face_probability : option num) (verbose : option bool)
  : M World bool :=
  let mask_probability := kwarg mask_probability (lit 0.995) in
  let face_probability := kwarg face_probability (lit 0.9) in
  let verbose := kwarg verbose false in
  base_do capture_frame_and_load_image ;;
  self_detect_faces face_probability ;;
  detect_facemask (Some mask_probability) (Some verbose) ;;
  self_draw_boxes_around_faces ;;
  ls <- attr labels ;;
  r <- for_in ls (fun label =>
         if str_in "Wearing Mask" label then ret (Return true) else ret Next) ;;
  match r with
  | Some b => ret b
  | None => ret false
  end.

(** *** [capture_frame_and_detect_facemask_live] *)

(** [ord("q")] *)
Definition ord_q : Z := 113.

(** One turn of the [while True] loop of lines 122-137; [true] is [break]. *)
Definition live_iteration (mask_probability face_probability : num)
    (verbose : bool) : M World bool :=
  frame <- base_do vs_read ;;
  frame <- lift (resize frame 400) ;;
  base_do (load_image_from_frame frame) ;;
  self_detect_faces face_probability ;;
  detect_facemask (Some mask_probability) (Some verbose) ;;
  self_draw_boxes_around_faces ;;
  k <- base_do (waitKey 1) ;;
  let key := Z.land k 255 in
  base_do (imshow_image "Frame") ;;
  ret (Z.eqb key ord_q).

(** The loop has no bound of its own: [fuel] counts the frames the model is
    run for, and [None] says they were used up before the key was pressed. *)
Fixpoint live_loop (fuel : nat) (mask_probability face_probability : num)
    (verbose : bool) : M World (option unit) :=
  match fuel with
  | O => ret None
  | S fuel' =>
      stop <- live_iteration mask_probability face_probability verbose ;;
      if stop then ret (Some tt)
      else live_loop fuel' mask_probability face_probability verbose
  end.

Definition capture_frame_and_detect_facemask_live (fuel : nat)
    (mask_probability face_probability : option num) (verbose : option bool)
  : M World (option unit) :=
  let mask_probability := kwarg mask_probability (lit 0.975) in
  let face_probability := kwarg face_probability (lit 0.9) in
  let verbose := kwarg verbose false in
  r <- live_loop fuel mask_probability face_probability verbose ;;
  match r with
  | None => ret None
  | Some _ => base_do destroyAllWindows ;; ret (Some tt)
  end.

(** [get_labels] *)
Definition get_labels : M World (list string) := attr labels.

(** *** Predicates the statements use *)

(** The object is as [__init__] builds it: the cached tensor descriptors are
    those of its engine. *)
Definition constructed (o : FaceMaskDetector) : Prop :=
  input_details o = get_input_details (mask_model o) /\
  output_details o = get_output_details (mask_model o).

(** Everything of the object but [labels], [colors] and the two tensor
    buffers of the engine. *)
Definition same_config (o o' : FaceMaskDetector) : Prop :=
  base o' = base o /\
  faces o' = faces o /\
  mask_detect_model_location o' = mask_detect_model_location o /\
  input_details o' = input_details o /\
  output_details o' = output_details o /\
  network (mask_model o') = network (mask_model o) /\
  input_index (mask_model o') = input_index (mask_model o) /\
  output_index (mask_model o') = output_index (mask_model o).

(** A label with the color that goes with it. *)
Definition paired (l : string) (c : color) : Prop :=
  (l = WEARING_MASK /\ c = DARK_GREEN) \/ (l = NO_MASK /\ c = RED_ORANGE).

(** A printed line that is one of the two labels. *)
Definition label_line (l : out_line) : Prop :=
  l = Text WEARING_MASK \/ l = Text NO_MASK.

(** The world [detect_facemask] enters its loop in (lines 51-52). *)
Definition cleared (w : World) : World :=
  on_self (with_colors []) (on_self (with_labels []) w).

End Detector.

(** ** A concrete detector over exact rationals

    Faces are numbered; the engine answers with a one-by-one matrix holding
    the probability of not wearing a mask.  Face 5 sits on the default
    threshold ([1 - 0.005 = 0.995]), face 4 between the two defaults of the
    source ([1 - 0.02 = 0.98]), and the engine fails on any other number. *)
Module Example.

Import QScalar.

Definition ex_network (f : nat) : option (list (list Q)) :=
  match f with
  | 1%nat => Some [[0.5%Q]]
  | 2%nat => Some [[0.001%Q]]
  | 3%nat => Some [[0.5%Q]]
  | 4%nat => Some [[0.02%Q]]
  | 5%nat => Some [[0.005%Q]]
  | _ => None
  end.

Definition ex_engine : @Interpreter Q nat :=
  {| network := ex_network;
     input_index := 0;
     output_index := 183;
     input_tensor := None;
     output_tensor := None |}.

(** The frame counter stands for the state of the base class. *)
Definition ex_detector (fs : list nat) (ls : list string) (cs : list color)
  : @FaceMaskDetector Q nat nat :=
  init 0%nat fs ls cs "mask_detector.tflite" ex_engine.

Definition ex_world (fs : list nat) : @World Q nat nat :=
  {| self := ex_detector fs [] []; stdout := [] |}.

(** A world that still holds the results of an earlier frame. *)
Definition ex_world_after (fs : list nat) : @World Q nat nat :=
  {| self := ex_detector fs [NO_MASK; NO_MASK] [RED_ORANGE; RED_ORANGE];
     stdout := [] |}.

Definition ex_capture (b : nat) : outcome unit * nat := (Normal tt, S b).

Definition ex_detect_faces (fs : list nat) (probability : Q) (b : nat)
  : outcome (list nat) * nat := (Normal fs, b).

Definition ex_draw (ls : list string) (cs : list color) (b : nat)
  : outcome unit * nat := (Normal tt, b).

Definition ex_vs_read (b : nat) : outcome nat * nat := (Normal b, S b).

Definition ex_resize (frame : nat) (width : Z) : outcome nat := Normal frame.

Definition ex_load (frame : nat) (b : nat) : outcome unit * nat := (Normal tt, b).

(** The key [q] is pressed on the third frame. *)
Definition ex_waitKey (delay : Z) (b : nat) : outcome Z * nat :=
  (Normal (if Nat.leb 3 b then 113%Z else (-1)%Z), b).

Definition ex_imshow (title : string) (b : nat) : outcome unit * nat := (Normal tt, b).

Definition ex_destroy (b : nat) : outcome unit * nat := (Normal tt, b).

(** The single-frame path on the faces [fs]. *)
Definition ex_capture_frame_and_detect_facemask (fs : list nat)
    (mask_probability : option Q) : M World bool :=
  capture_frame_and_detect_facemask ex_capture (ex_detect_faces fs) ex_draw
    mask_probability None None.

(** The live path on the faces [fs]. *)
Definition ex_live (fs : list nat) (mask_probability : option Q)
  : M World (option unit) :=
  capture_frame_and_detect_facemask_live (ex_detect_faces fs) ex_draw
    ex_vs_read ex_resize ex_load ex_waitKey ex_imshow ex_destroy
    10 mask_probability None None.

(** The label [detect_facemask] gives a face when it is the only one. *)
Definition ex_label_alone (mask_probability : Q) (f : nat) : list string :=
  labels (self (snd (detect_facemask (Some mask_probability) None (ex_world [f])))).

End Example.

(** ** A concrete detector over binary64 floats

    The same engine with IEEE doubles, to run the threshold test on the
    arithmetic Python's [float] has. *)
Module FloatExample.

Import FloatScalar.

Definition fl_network (f : nat) : option (list (list PrimFloat.float)) :=
  match f with
  | 1%nat => Some [[lit 0.5%Q]]
  | 2%nat => Some [[lit 0.001%Q]]
  | _ => None
  end.

Definition fl_engine : @Interpreter PrimFloat.float nat :=
  {| network := fl_network;
     input_index := 0;
     output_index := 183;
     input_tensor := None;
     output_tensor := None |}.

Definition fl_world (fs : list nat) : @World PrimFloat.float nat nat :=
  {| self := init 0%nat fs [] [] "mask_detector.tflite" fl_engine;
     stdout := [] |}.

End FloatExample.

(** ** Notions the further statements use *)

(** [needle] occurs in [hay] as a substring. *)
Definition occurs_in (needle hay : string) : Prop :=
  exists pre post : string, hay = pre ++ needle ++ post.

(** The computation [m] keeps the invariant [I] of the world, however it
    ends. *)
Definition preserves {W A : Type} (I : W -> Prop) (m : M W A) : Prop :=
  forall w : W, I w -> I (snd (m w)).

(** The line [print('-'*100)] writes. *)
Definition separator : string := str_repeat "-" 100.

Section Results.

Context {num : Type} {FaceImage Base : Type}.

(** The results are in pairs and come from at most one face. *)
Definition results_paired (w : @World num FaceImage Base) : Prop :=
  Forall2 paired (labels (self w)) (colors (self w)) /\
  (List.length (labels (self w)) <= 1)%nat.

(** The lines a call printed: what [w'] has after the lines of [w]. *)
Definition printed (w w' : @World num FaceImage Base)
    (lines : list (@out_line num)) : Prop :=
  stdout w' = (stdout w ++ lines)%list.

End Results.

(** ** Collaborators that fail, and keyboards *)
Module Failing.

Import QScalar Example.

(** The camera is gone. *)
Definition ex_capture_fails (b : nat) : outcome unit * nat :=
  (Raise (ExternalError 1), b).

(** The face detector fails. *)
Definition ex_detect_faces_fails (probability : Q) (b : nat)
  : outcome (list nat) * nat := (Raise (ExternalError 2), b).

(** Nobody touches the keyboard. *)
Definition ex_waitKey_idle (delay : Z) (b : nat) : outcome Z * nat :=
  (Normal (-1)%Z, b).

(** The key [q] is down, reported with a bit above the low byte. *)
Definition ex_waitKey_q (delay : Z) (b : nat) : outcome Z * nat :=
  (Normal 369%Z, b).

(** One turn of the live loop on the faces [fs], with the keyboard [keys]. *)
Definition ex_iteration (keys : Z -> nat -> outcome Z * nat) (fs : list nat)
  : M World bool :=
  live_iteration (ex_detect_faces fs) ex_draw ex_vs_read ex_resize ex_load
    keys ex_imshow 0.975%Q 0.9%Q false.

(** The live path on the faces [fs], with the keyboard [keys]. *)
Definition ex_live_keys (keys : Z -> nat -> outcome Z * nat) (fuel : nat)
    (fs : list nat) : M World (option unit) :=
  capture_frame_and_detect_facemask_live (ex_detect_faces fs) ex_draw
    ex_vs_read ex_resize ex_load keys ex_imshow ex_destroy
    fuel None None None.

End Failing.

(** * Properties *)

Module QScalarLaws.

Import QScalar.

Lemma q_geb_le (x y : Q) : geb x y = true <-> (y <= x)%Q.
Proof. apply Qle_bool_iff. Qed.

#[export] Instance q_laws : ScalarLaws q_scalar.
Proof.
  split.
  - intros x. apply q_geb_le, Qle_refl.
  - intros x y z Hxy Hyz. apply q_geb_le.
    apply q_geb_le in Hxy. apply q_geb_le in Hyz.
    now apply Qle_trans with y.
  - intros p q Hqp. apply q_geb_le. apply q_geb_le in Hqp.
    cbn [sub lit q_scalar]. unfold Qminus.
    apply Qplus_le_compat; [apply Qle_refl | now apply Qopp_le_compat].
  - reflexivity.
  - reflexivity.
Qed.

End QScalarLaws.

Section Properties.

Context {num : Type} {SC : Scalar num} {FaceImage Base : Type}.

Local Abbreviation world := (@World num FaceImage Base).
Local Abbreviation detector := (@FaceMaskDetector num FaceImage Base).

Ltac break_world w :=
  destruct w as [[?b ?fs ?ls ?cs ?loc [?net ?ii ?oi ?it ?ot] ?ind ?outd] ?out].

(** Project the records. *)
Ltac project :=
  cbn [self stdout mask_model input_details output_details labels
       colors faces base mask_detect_model_location network input_index
       output_index input_tensor output_tensor index fst snd app].

(** Evaluate [in] on two string constants. *)
Ltac decide_str_in :=
  repeat match goal with
    | |- context [str_in ?a ?b] =>
        let r := eval compute in (str_in a b) in
        first [constr_eq r true | constr_eq r false];
        change (str_in a b) with r
    end.

(** Unfold the monad and the engine in the loop body, down to the tests the
    run depends on. *)
Ltac run :=
  cbv [detect_facemask_body bind attr item0
       mask_model_do mask_model_read set_tensor invoke get_tensor print
       modify ret raise on_self with_mask_model with_labels with_colors
       with_faces cleared];
  project; decide_str_in; project.

(** Decide a test by an equation at hand, or else by cases. *)
Ltac split_on x :=
  first [ match goal with H : x = _ |- _ => rewrite H end
        | destruct x eqn:? ].

(** Split on the next test the run is waiting for. *)
Ltac step :=
  match goal with
  | |- context [match ?x with _ => _ end] =>
      match x with
      | Nat.eqb _ _ => split_on x
      | geb _ _ => split_on x
      | _ => is_var x; destruct x
      | ?n ?f => is_var n; is_var f; split_on x
      end
  end; run.

Ltac run_body w := break_world w; run; repeat step.

Lemma detect_facemask_unfold (m : option num) (v : option bool) (w : world) :
  detect_facemask m v w =
  for_in (faces (self w))
    (detect_facemask_body (kwarg m (lit 0.995)) (kwarg v false)) (cleared w).
Proof. reflexivity. Qed.

Lemma bind_normal {W A B} (m : M W A) (k : A -> M W B) (w w' : W) (a : A) :
  m w = (Normal a, w') -> bind m k w = k a w'.
Proof. intros Hm. unfold bind. now rewrite Hm. Qed.

Lemma bind_raise {W A B} (m : M W A) (k : A -> M W B) (w w' : W) (e : exn) :
  m w = (Raise e, w') -> bind m k w = (Raise e, w').
Proof. intros Hm. unfold bind. now rewrite Hm. Qed.

Lemma for_in_cons {W A R} (x : A) (rest : list A) (body : A -> M W (flow R)) (w : W) :
  for_in (x :: rest) body w =
  match body x w with
  | (Normal Next, w') => for_in rest body w'
  | (Normal (Return r), w') => (Normal (Some r), w')
  | (Raise e, w') => (Raise e, w')
  end.
Proof.
  cbn [for_in]. unfold bind. destruct (body x w) as [[[|r]|e] w']; reflexivity.
Qed.

(** What one turn of the loop does to [labels] and [colors], and that it
    always ends in a [return] or an exception. *)
Lemma body_cases (m : num) (v : bool) (f : FaceImage) (w : world) :
  match detect_facemask_body m v f w with
  | (Normal (Return r), w') =>
      exists l c, paired l c /\ r = str_in WEARING_MASK l /\
                  labels (self w') = (labels (self w) ++ [l])%list /\
                  colors (self w') = (colors (self w) ++ [c])%list
  | (Normal Next, _) => False
  | (Raise _, w') =>
      labels (self w') = labels (self w) /\ colors (self w') = colors (self w)
  end.
Proof.
  run_body w; try (now split).
  all: eexists; eexists; split; [|split; [|split; reflexivity]];
    cbv [paired WEARING_MASK NO_MASK DARK_GREEN RED_ORANGE]; auto.
Qed.

(** One turn of the loop writes nothing but [labels], [colors] and the
    tensor buffers, and only appends to the output: label lines, and the
    separator and the probability when [verbose] is set. *)
Lemma body_frame (m : num) (v : bool) (f : FaceImage) (w : world) :
  same_config (self w) (self (snd (detect_facemask_body m v f w))) /\
  exists extra,
    stdout (snd (detect_facemask_body m v f w)) = (stdout w ++ extra)%list /\
    (v = false -> Forall label_line extra).
Proof.
  run_body w; (split; [repeat split|]).
  all: try (exists []; split; [now rewrite app_nil_r | constructor]).
  all: rewrite <- ?app_assoc; eexists; (split; [reflexivity|]).
  all: try discriminate.
  all: intros _; repeat (apply Forall_cons || apply Forall_nil).
  all: cbv [label_line WEARING_MASK NO_MASK]; auto.
Qed.

(** One turn of the loop on an object as [__init__] builds it, when the
    engine answers with a matrix that has an entry [0][0]. *)
Lemma body_constructed (m : num) (v : bool) (f : FaceImage) (w : world)
    (x : num) (row : list num) (rows : list (list num)) :
  constructed (self w) ->
  network (mask_model (self w)) f = Some ((x :: row) :: rows) ->
  let r := detect_facemask_body m v f w in
  let wearing := geb (sub (lit 1) x) m in
  fst r = Normal (Return wearing) /\
  labels (self (snd r)) =
    (labels (self w) ++ [if wearing then WEARING_MASK else NO_MASK])%list /\
  colors (self (snd r)) =
    (colors (self w) ++ [if wearing then DARK_GREEN else RED_ORANGE])%list.
Proof.
  intros [Hin Hout] Hnet. break_world w.
  cbv [get_input_details get_output_details] in Hin, Hout.
  cbn in Hin, Hout, Hnet. subst ind outd.
  run. repeat (first [rewrite Nat.eqb_refl | rewrite Hnet]; run).
  destruct v; run; destruct (geb (sub (lit 1) x) m); cbn; auto.
Qed.

(** Whether one turn of the loop raises does not depend on the threshold. *)
Lemma body_raise_any_threshold (m m' : num) (v : bool) (f : FaceImage)
    (w : world) (e : exn) :
  fst (detect_facemask_body m v f w) = Raise e ->
  fst (detect_facemask_body m' v f w) = Raise e.
Proof.
  run_body w; auto; discriminate.
Qed.

(** The loop body neither reads nor writes [faces]. *)
Lemma body_with_faces (m : num) (v : bool) (f : FaceImage) (fs : list FaceImage)
    (w : world) :
  detect_facemask_body m v f (on_self (with_faces fs) w) =
  (fst (detect_facemask_body m v f w),
   on_self (with_faces fs) (snd (detect_facemask_body m v f w))).
Proof.
  run_body w; reflexivity.
Qed.

(** A turn of the loop repeated on the world it left, [labels] and [colors]
    emptied again, ends the same way and leaves the same object. *)
Lemma body_twice (m : num) (v : bool) (f : FaceImage) (w : world) :
  let r1 := detect_facemask_body m v f (cleared w) in
  let r2 := detect_facemask_body m v f (cleared (snd r1)) in
  fst r2 = fst r1 /\ self (snd r2) = self (snd r1).
Proof.
  run_body w; auto.
Qed.

(** ** [detect_facemask] as a whole *)

Lemma detect_facemask_nil (m : option num) (v : option bool) (w : world) :
  faces (self w) = [] ->
  detect_facemask m v w = (Normal None, cleared w).
Proof.
  intros Hfaces. rewrite detect_facemask_unfold, Hfaces. reflexivity.
Qed.

Lemma detect_facemask_cons (m : option num) (v : option bool) (w : world)
    (f : FaceImage) (rest : list FaceImage) :
  faces (self w) = f :: rest ->
  detect_facemask m v w =
  match detect_facemask_body (kwarg m (lit 0.995)) (kwarg v false) f (cleared w) with
  | (Normal (Return r), w') => (Normal (Some r), w')
  | (Normal Next, w') =>
      for_in rest (detect_facemask_body (kwarg m (lit 0.995)) (kwarg v false)) w'
  | (Raise e, w') => (Raise e, w')
  end.
Proof.
  intros Hfaces. rewrite detect_facemask_unfold, Hfaces. apply for_in_cons.
Qed.

Lemma cleared_labels (w : world) : labels (self (cleared w)) = [].
Proof. reflexivity. Qed.

Lemma cleared_colors (w : world) : colors (self (cleared w)) = [].
Proof. reflexivity. Qed.

Lemma same_config_refl (o : detector) : same_config o o.
Proof. repeat split. Qed.

Lemma same_config_cleared (w : world) : same_config (self w) (self (cleared w)).
Proof. repeat split. Qed.

Lemma same_config_trans (o1 o2 o3 : detector) :
  same_config o1 o2 -> same_config o2 o3 -> same_config o1 o3.
Proof.
  unfold same_config. intros H12 H23.
  decompose [and] H12. decompose [and] H23. repeat split; congruence.
Qed.

(** On a non-empty sequence the call ends with the first turn of the loop. *)
Lemma detect_facemask_first (m : option num) (v : option bool) (w : world)
    (f : FaceImage) (rest : list FaceImage) :
  faces (self w) = f :: rest ->
  let r := detect_facemask m v w in
  let r0 := detect_facemask_body (kwarg m (lit 0.995)) (kwarg v false) f (cleared w) in
  snd r = snd r0 /\
  ((exists b, fst r = Normal (Some b) /\ fst r0 = Normal (Return b)) \/
   (exists e, fst r = Raise e /\ fst r0 = Raise e)).
Proof.
  intros Hfaces. cbv zeta. rewrite (detect_facemask_cons m v w f rest Hfaces).
  pose proof (body_cases (kwarg m (lit 0.995)) (kwarg v false) f (cleared w)) as Hb.
  destruct (detect_facemask_body _ _ f (cleared w)) as [[[|b]|e] w'];
    [contradiction| |]; (split; [reflexivity|]).
  - left. exists b. now split.
  - right. exists e. now split.
Qed.

(** C5. On an empty sequence of faces [detect_facemask] raises nothing and
    falls off the loop: it returns [None], leaves [labels] and [colors]
    empty, prints nothing and does not touch the engine. *)
Theorem detect_facemask_no_faces (m : option num) (v : option bool) (w : world) :
  faces (self w) = [] ->
  fst (detect_facemask m v w) = Normal None /\
  labels (self (snd (detect_facemask m v w))) = [] /\
  colors (self (snd (detect_facemask m v w))) = [] /\
  stdout (snd (detect_facemask m v w)) = stdout w /\
  mask_model (self (snd (detect_facemask m v w))) = mask_model (self w).
Proof.
  intros Hfaces. rewrite (detect_facemask_nil m v w Hfaces).
  now repeat split.
Qed.

(** C10. After every call of [detect_facemask], whatever it returned or
    raised, [labels] and [colors] have the same length and go in pairs:
    "Wearing Mask" with dark green, "No Mask" with red-orange. *)
Theorem detect_facemask_lockstep (m : option num) (v : option bool) (w : world) :
  List.length (labels (self (snd (detect_facemask m v w)))) =
  List.length (colors (self (snd (detect_facemask m v w)))) /\
  Forall2 paired (labels (self (snd (detect_facemask m v w))))
                 (colors (self (snd (detect_facemask m v w)))).
Proof.
  destruct (faces (self w)) as [|f rest] eqn:Hfaces.
  - rewrite (detect_facemask_nil m v w Hfaces). split; [reflexivity | constructor].
  - destruct (detect_facemask_first m v w f rest Hfaces) as [Hsnd _].
    rewrite Hsnd.
    pose proof (body_cases (kwarg m (lit 0.995)) (kwarg v false) f (cleared w)) as Hb.
    destruct (detect_facemask_body _ _ f (cleared w)) as [[[|b]|e] w'];
      [contradiction| |]; cbn [snd].
    + destruct Hb as (l & c & Hpair & _ & Hl & Hc).
      rewrite Hl, Hc, cleared_labels, cleared_colors.
      cbn [app]. split; [reflexivity|].
      apply Forall2_cons; [exact Hpair | apply Forall2_nil].
    + destruct Hb as [Hl Hc].
      rewrite Hl, Hc, cleared_labels, cleared_colors.
      split; [reflexivity | constructor].
Qed.

(** C6. A second call of [detect_facemask] on the world the first one left,
    with the same arguments, ends the same way and leaves the same labels
    and colors; indeed the same object. *)
Theorem detect_facemask_twice (m : option num) (v : option bool) (w : world) :
  let r1 := detect_facemask m v w in
  let r2 := detect_facemask m v (snd r1) in
  fst r2 = fst r1 /\
  labels (self (snd r2)) = labels (self (snd r1)) /\
  colors (self (snd r2)) = colors (self (snd r1)) /\
  self (snd r2) = self (snd r1).
Proof.
  cbv zeta.
  assert (fst (detect_facemask m v (snd (detect_facemask m v w))) =
          fst (detect_facemask m v w) /\
          self (snd (detect_facemask m v (snd (detect_facemask m v w)))) =
          self (snd (detect_facemask m v w))) as [Hfst Hself].
  { destruct (faces (self w)) as [|f rest] eqn:Hfaces.
    - rewrite (detect_facemask_nil m v w Hfaces). cbn [snd].
      rewrite (detect_facemask_nil m v (cleared w)) by exact Hfaces.
      now split.
    - destruct (detect_facemask_first m v w f rest Hfaces) as [Hsnd Hout].
      pose proof (body_frame (kwarg m (lit 0.995)) (kwarg v false) f (cleared w))
        as [Hcfg _].
      pose proof (body_twice (kwarg m (lit 0.995)) (kwarg v false) f w)
        as [Hfst2 Hself2].
      assert (faces (self (snd (detect_facemask m v w))) = f :: rest) as Hfaces'.
      { rewrite Hsnd. destruct Hcfg as (_ & Hf & _). rewrite Hf. exact Hfaces. }
      destruct (detect_facemask_first m v _ f rest Hfaces') as [Hsnd' Hout'].
      rewrite Hsnd', Hsnd. split; [|exact Hself2].
      rewrite Hsnd in Hout'. rewrite Hfst2 in Hout'.
      destruct Hout as [(b & Hr & Hb)|(e & Hr & Hb)];
        destruct Hout' as [(b' & Hr' & Hb')|(e' & Hr' & Hb')];
        rewrite Hr, Hr'; congruence. }
  rewrite Hself. auto.
Qed.

(** What a call leaves untouched, and what it prints. *)
Lemma detect_facemask_writes_only (m : option num) (v : option bool) (w : world) :
  same_config (self w) (self (snd (detect_facemask m v w))) /\
  exists extra,
    stdout (snd (detect_facemask m v w)) = (stdout w ++ extra)%list /\
    (kwarg v false = false -> Forall label_line extra).
Proof.
  destruct (faces (self w)) as [|f rest] eqn:Hfaces.
  - rewrite (detect_facemask_nil m v w Hfaces). cbn [snd].
    split; [apply same_config_cleared|].
    exists []. split; [now rewrite app_nil_r | constructor].
  - destruct (detect_facemask_first m v w f rest Hfaces) as [Hsnd _].
    rewrite Hsnd.
    destruct (body_frame (kwarg m (lit 0.995)) (kwarg v false) f (cleared w))
      as [Hcfg Hout].
    split; [|exact Hout].
    apply same_config_trans with (self (cleared w));
      [apply same_config_cleared | exact Hcfg].
Qed.

(** The amended C8. A call of [detect_facemask] writes [labels], [colors]
    and the tensor buffers of the engine, and nothing else of the object:
    the base attributes, [faces], the model location, the tensor descriptors
    and the network with its tensor indices stay as they were.  On standard
    output it only appends, and without [verbose] only label lines. *)
Theorem detect_facemask_frame (m : option num) (v : option bool) (w : world) :
  same_config (self w) (self (snd (detect_facemask m v w))) /\
  exists extra,
    stdout (snd (detect_facemask m v w)) = (stdout w ++ extra)%list /\
    (kwarg v false = false -> Forall label_line extra).
Proof. exact (detect_facemask_writes_only m v w). Qed.

(** The call on an object as [__init__] builds it, when the engine answers
    for the first face with a matrix that has an entry [0][0]. *)
Lemma detect_facemask_constructed (m : option num) (v : option bool) (w : world)
    (f : FaceImage) (rest : list FaceImage)
    (x : num) (row : list num) (rows : list (list num)) :
  faces (self w) = f :: rest ->
  constructed (self w) ->
  network (mask_model (self w)) f = Some ((x :: row) :: rows) ->
  let r := detect_facemask m v w in
  let wearing := geb (sub (lit 1) x) (kwarg m (lit 0.995)) in
  fst r = Normal (Some wearing) /\
  labels (self (snd r)) = [if wearing then WEARING_MASK else NO_MASK] /\
  colors (self (snd r)) = [if wearing then DARK_GREEN else RED_ORANGE].
Proof.
  intros Hfaces Hcon Hnet. cbv zeta.
  destruct (detect_facemask_first m v w f rest Hfaces) as [Hsnd Hout].
  destruct (body_constructed (kwarg m (lit 0.995)) (kwarg v false) f (cleared w)
              x row rows Hcon Hnet) as (Hfst & Hl & Hc).
  rewrite Hsnd, Hl, Hc. repeat split.
  destruct Hout as [(b & Hr & Hb)|(e & Hr & Hb)]; rewrite Hr; congruence.
Qed.

(** The loop of lines 101-105 is a disjunction over [labels]. *)
Lemma summary_loop (ls : list string) (w : world) :
  for_in ls (fun label : string =>
               if str_in "Wearing Mask" label
               then ret (Return true) else ret Next) w =
  (Normal (if existsb (str_in "Wearing Mask") ls then Some true else None), w).
Proof.
  induction ls as [|l ls IH]; [reflexivity|].
  rewrite for_in_cons. cbn [existsb].
  destruct (str_in "Wearing Mask" l); [reflexivity|].
  cbv [ret]. cbn [orb]. exact IH.
Qed.

Section SingleFrame.

Variable capture_frame_and_load_image : Base -> outcome unit * Base.
Variable detect_faces : num -> Base -> outcome (list FaceImage) * Base.
Variable draw_boxes_around_faces :
  list string -> list color -> Base -> outcome unit * Base.

(** The single-frame path when the collaborators do not fail: the value
    returned is the disjunction over the labels [detect_facemask] left. *)
Lemma capture_frame_and_detect_facemask_run
    (m fp : option num) (v : option bool) (w : world)
    (fs : list FaceImage) (b1 b2 : Base) :
  capture_frame_and_load_image (base (self w)) = (Normal tt, b1) ->
  detect_faces (kwarg fp (lit 0.9)) b1 = (Normal fs, b2) ->
  (forall ls cs, fst (draw_boxes_around_faces ls cs b2) = Normal tt) ->
  let w2 := on_self (with_faces fs) (on_self (with_base b2) w) in
  let r2 := detect_facemask (Some (kwarg m (lit 0.995))) (Some (kwarg v false)) w2 in
  let r := capture_frame_and_detect_facemask capture_frame_and_load_image
             detect_faces draw_boxes_around_faces m fp v w in
  (forall e, fst r2 = Raise e -> fst r = Raise e) /\
  (forall b, fst r2 = Normal b ->
     fst r = Normal (existsb (str_in "Wearing Mask") (labels (self (snd r2)))) /\
     labels (self (snd r)) = labels (self (snd r2)) /\
     colors (self (snd r)) = colors (self (snd r2))).
Proof.
  intros Hcap Hdet Hdraw. cbv zeta.
  set (w2 := on_self (with_faces fs) (on_self (with_base b2) w)).
  pose proof (detect_facemask_writes_only (Some (kwarg m (lit 0.995)))
                (Some (kwarg v false)) w2) as [(Hbase & _) _].
  assert (base_do capture_frame_and_load_image w =
          (Normal tt, on_self (with_base b1) w)) as H1.
  { unfold base_do. now rewrite Hcap. }
  assert (self_detect_faces detect_faces (kwarg fp (lit 0.9))
            (on_self (with_base b1) w) = (Normal tt, w2)) as H2.
  { unfold self_detect_faces, bind, base_do.
    cbn [self base on_self with_base]. now rewrite Hdet. }
  unfold capture_frame_and_detect_facemask. cbv zeta.
  rewrite (bind_normal _ _ _ _ _ H1), (bind_normal _ _ _ _ _ H2).
  destruct (detect_facemask (Some (kwarg m (lit 0.995))) (Some (kwarg v false)) w2)
    as [[b|e] w3] eqn:E2; cbn [fst snd] in *.
  - split; [discriminate|]. intros b' _.
    rewrite (bind_normal _ _ _ _ _ E2).
    assert (exists b3, self_draw_boxes_around_faces draw_boxes_around_faces w3 =
                       (Normal tt, on_self (with_base b3) w3)) as [b3 H4].
    { unfold self_draw_boxes_around_faces, bind, attr, base_do.
      rewrite Hbase. subst w2. cbn [self base on_self with_base with_faces].
      specialize (Hdraw (labels (self w3)) (colors (self w3))).
      destruct (draw_boxes_around_faces _ _ b2) as [o4 b3].
      cbn [fst] in Hdraw. subst o4. now exists b3. }
    rewrite (bind_normal _ _ _ _ _ H4).
    rewrite (bind_normal (attr labels) _ _ _ _ eq_refl).
    rewrite (bind_normal _ _ _ _ _ (summary_loop _ _)).
    cbn [self labels colors on_self with_base].
    destruct (existsb _ _); cbn; auto.
  - split; [|discriminate]. intros e' He.
    rewrite (bind_raise _ _ _ _ _ E2). cbn [fst]. congruence.
Qed.

(** What [detect_facemask] leaves does not depend on the faces after the
    first one. *)
Lemma detect_facemask_ignores_rest (m : option num) (v : option bool)
    (w : world) (f : FaceImage) (rest : list FaceImage) :
  let ra := detect_facemask m v (on_self (with_faces (f :: rest)) w) in
  let rb := detect_facemask m v (on_self (with_faces [f]) w) in
  fst ra = fst rb /\
  fst ra <> Normal None /\
  snd ra = on_self (with_faces (f :: rest)) (snd rb).
Proof.
  cbv zeta.
  destruct (detect_facemask_first m v (on_self (with_faces (f :: rest)) w)
              f rest eq_refl) as [Hsa Houta].
  destruct (detect_facemask_first m v (on_self (with_faces [f]) w)
              f [] eq_refl) as [Hsb Houtb].
  change (cleared (on_self (with_faces (f :: rest)) w))
    with (on_self (with_faces (f :: rest)) (cleared w)) in *.
  change (cleared (on_self (with_faces [f]) w))
    with (on_self (with_faces [f]) (cleared w)) in *.
  rewrite body_with_faces in Hsa, Hsb, Houta, Houtb.
  cbn [fst snd] in Hsa, Hsb, Houta, Houtb.
  rewrite Hsa, Hsb. repeat split.
  - destruct Houta as [(b & Hr & Hb)|(e & Hr & Hb)];
      destruct Houtb as [(b' & Hr' & Hb')|(e' & Hr' & Hb')];
      rewrite Hr, Hr'; congruence.
  - destruct Houta as [(b & Hr & Hb)|(e & Hr & Hb)]; rewrite Hr; discriminate.
Qed.

(** C1. The loop of [detect_facemask] ends in its first turn.  On a
    non-empty sequence the call never falls off the loop, leaves at most one
    label, and its outcome, labels, colors and output are those of the call
    on the first face alone.  Through [capture_frame_and_detect_facemask],
    when the engine answers [x] for the first face, the value returned is
    the verdict [1 - x >= mask_probability] on that face, whatever the
    other faces are. *)
Theorem first_face_decides (m fp : option num) (v : option bool) (w : world)
    (f : FaceImage) (rest : list FaceImage) :
  (let ra := detect_facemask m v (on_self (with_faces (f :: rest)) w) in
   let rb := detect_facemask m v (on_self (with_faces [f]) w) in
   fst ra = fst rb /\
   fst ra <> Normal None /\
   labels (self (snd ra)) = labels (self (snd rb)) /\
   colors (self (snd ra)) = colors (self (snd rb)) /\
   stdout (snd ra) = stdout (snd rb) /\
   (List.length (labels (self (snd ra))) <= 1)%nat) /\
  (forall (x : num) (row : list num) (rows : list (list num)) (b1 b2 : Base),
     constructed (self w) ->
     network (mask_model (self w)) f = Some ((x :: row) :: rows) ->
     capture_frame_and_load_image (base (self w)) = (Normal tt, b1) ->
     detect_faces (kwarg fp (lit 0.9)) b1 = (Normal (f :: rest), b2) ->
     (forall ls cs, fst (draw_boxes_around_faces ls cs b2) = Normal tt) ->
     let r := capture_frame_and_detect_facemask capture_frame_and_load_image
                detect_faces draw_boxes_around_faces m fp v w in
     let wearing := geb (sub (lit 1) x) (kwarg m (lit 0.995)) in
     fst r = Normal wearing /\
     labels (self (snd r)) = [if wearing then WEARING_MASK else NO_MASK]).
Proof.
  split.
  - cbv zeta.
    destruct (detect_facemask_ignores_rest m v w f rest) as (Hfst & Hnone & Hsnd).
    rewrite Hsnd. repeat split; auto.
    change (labels (self (on_self (with_faces (f :: rest))
                            (snd (detect_facemask m v (on_self (with_faces [f]) w))))))
      with (labels (self (snd (detect_facemask m v (on_self (with_faces [f]) w))))).
    destruct (detect_facemask_first m v (on_self (with_faces [f]) w) f [] eq_refl)
      as [Hs _]. rewrite Hs.
    pose proof (body_cases (kwarg m (lit 0.995)) (kwarg v false) f
                  (cleared (on_self (with_faces [f]) w))) as Hb.
    destruct (detect_facemask_body _ _ f _) as [[[|b]|e] w'];
      [contradiction| |]; cbn [snd].
    + destruct Hb as (l & c & _ & _ & Hl & _). rewrite Hl, cleared_labels.
      cbn. lia.
    + destruct Hb as [Hl _]. rewrite Hl, cleared_labels. cbn. lia.
  - intros x row rows b1 b2 Hcon Hnet Hcap Hdet Hdraw. cbv zeta.
    destruct (capture_frame_and_detect_facemask_run m fp v w (f :: rest) b1 b2
                Hcap Hdet Hdraw) as [_ Hrun].
    destruct (detect_facemask_constructed
                (Some (kwarg m (lit 0.995))) (Some (kwarg v false))
                (on_self (with_faces (f :: rest)) (on_self (with_base b2) w))
                f rest x row rows eq_refl Hcon Hnet) as (Hfst & Hl & _).
    destruct (Hrun _ Hfst) as (Hr & Hlr & _).
    rewrite Hr, Hlr, Hl. cbn [kwarg].
    destruct (geb (sub (lit 1) x) (kwarg m (lit 0.995))); now split.
Qed.

End SingleFrame.

Section Thresholds.

Context {L : ScalarLaws SC}.

(** C3. For the face [detect_facemask] processes, with engine output [x]
    and threshold [m]: the label is "Wearing Mask" exactly when
    [1 - x >= m], in particular when [1 - x] is [m] itself, and "No Mask"
    otherwise; the color is dark green exactly when the label is
    "Wearing Mask" and red-orange otherwise. *)
Theorem label_rule (m : num) (v : option bool) (w : world)
    (f : FaceImage) (rest : list FaceImage)
    (x : num) (row : list num) (rows : list (list num)) :
  faces (self w) = f :: rest ->
  constructed (self w) ->
  network (mask_model (self w)) f = Some ((x :: row) :: rows) ->
  exists l c,
    labels (self (snd (detect_facemask (Some m) v w))) = [l] /\
    colors (self (snd (detect_facemask (Some m) v w))) = [c] /\
    (l = "Wearing Mask" <-> geb (sub (lit 1) x) m = true) /\
    (l = "No Mask" <-> geb (sub (lit 1) x) m = false) /\
    (sub (lit 1) x = m -> l = "Wearing Mask") /\
    (c = (0, 102, 0)%Z <-> l = "Wearing Mask") /\
    (c = (33, 33, 183)%Z <-> l <> "Wearing Mask").
Proof.
  intros Hfaces Hcon Hnet.
  destruct (detect_facemask_constructed (Some m) v w f rest x row rows
              Hfaces Hcon Hnet) as (_ & Hl & Hc).
  cbn [kwarg] in Hl, Hc.
  exists (if geb (sub (lit 1) x) m then WEARING_MASK else NO_MASK),
         (if geb (sub (lit 1) x) m then DARK_GREEN else RED_ORANGE).
  split; [exact Hl|]. split; [exact Hc|].
  assert (sub (lit 1) x = m -> geb (sub (lit 1) x) m = true) as Hrefl.
  { intros ->. apply geb_refl. }
  destruct (geb (sub (lit 1) x) m);
    cbv [WEARING_MASK NO_MASK DARK_GREEN RED_ORANGE];
    repeat split; intros; try reflexivity; try discriminate; try congruence;
    auto.
  match goal with H : sub _ _ = _ |- _ => specialize (Hrefl H) end.
  discriminate.
Qed.

(** C7. [detect_facemask] does not check the range of [mask_probability].
    A call that raises with one threshold raises the same with any other,
    so no threshold is refused.  When the engine answers [x] for the
    processed face, the call returns for every threshold; a threshold above
    1 gives "No Mask" when [x >= 0], and a threshold that is at most 0 gives
    "Wearing Mask" when [x <= 1]. *)
Theorem threshold_not_validated (m : num) (v : option bool) (w : world) :
  (forall (m' : num) (e : exn),
     fst (detect_facemask (Some m') v w) = Raise e ->
     fst (detect_facemask (Some m) v w) = Raise e) /\
  (forall (f : FaceImage) (rest : list FaceImage)
          (x : num) (row : list num) (rows : list (list num)),
     faces (self w) = f :: rest ->
     constructed (self w) ->
     network (mask_model (self w)) f = Some ((x :: row) :: rows) ->
     fst (detect_facemask (Some m) v w) = Normal (Some (geb (sub (lit 1) x) m)) /\
     (geb (lit 1) m = false -> geb x (lit 0) = true ->
      labels (self (snd (detect_facemask (Some m) v w))) = ["No Mask"]) /\
     (geb (lit 0) m = true -> geb (lit 1) x = true ->
      labels (self (snd (detect_facemask (Some m) v w))) = ["Wearing Mask"])).
Proof.
  split.
  - intros m' e Hraise.
    destruct (faces (self w)) as [|f rest] eqn:Hfaces.
    + rewrite (detect_facemask_nil (Some m') v w Hfaces) in Hraise. discriminate.
    + destruct (detect_facemask_first (Some m') v w f rest Hfaces) as [_ Hout'].
      destruct (detect_facemask_first (Some m) v w f rest Hfaces) as [_ Hout].
      cbn [kwarg] in Hout, Hout'.
      destruct Hout' as [(b' & Hr' & Hb')|(e' & Hr' & Hb')]; [congruence|].
      apply (body_raise_any_threshold m' m) in Hb'.
      destruct Hout as [(b & Hr & Hb)|(e0 & Hr & Hb)]; congruence.
  - intros f rest x row rows Hfaces Hcon Hnet.
    destruct (detect_facemask_constructed (Some m) v w f rest x row rows
                Hfaces Hcon Hnet) as (Hfst & Hl & _).
    cbn [kwarg] in Hfst, Hl. rewrite Hl. split; [exact Hfst|]. split.
    + intros Habove Hx.
      destruct (geb (sub (lit 1) x) m) eqn:Hge; [|reflexivity].
      assert (geb (lit 1) m = true); [|congruence].
      apply geb_trans with (sub (lit 1) x); [|exact Hge].
      apply geb_trans with (sub (lit 1) (lit 0)); [apply one_minus_zero|].
      now apply one_minus_antitone.
    + intros Hbelow Hx.
      assert (geb (sub (lit 1) x) m = true) as ->; [|reflexivity].
      apply geb_trans with (lit 0); [|exact Hbelow].
      apply geb_trans with (sub (lit 1) (lit 1)); [|apply one_minus_one].
      now apply one_minus_antitone.
Qed.

End Thresholds.

(** ** Further properties of the loop body *)

(** Python's [in] on strings is the substring relation. *)
Lemma starts_with_spec (needle hay : string) :
  starts_with needle hay = true <-> exists post : string, hay = needle ++ post.
Proof.
  revert hay. induction needle as [|a needle IH]; intros hay.
  - split; [intros _; now exists hay | reflexivity].
  - destruct hay as [|b hay]; cbn [starts_with].
    + split; [discriminate | intros [post Hpost]; discriminate].
    + rewrite Bool.andb_true_iff, Ascii.eqb_eq, IH. split.
      * intros [-> [post ->]]. now exists post.
      * intros [post Hpost]. cbn in Hpost. injection Hpost as -> ->.
        split; [reflexivity | now exists post].
Qed.

Lemma str_in_unfold (needle hay : string) :
  str_in needle hay =
  if starts_with needle hay then true
  else match hay with
       | EmptyString => false
       | String _ rest => str_in needle rest
       end.
Proof. destruct hay; reflexivity. Qed.

Lemma str_in_spec (needle hay : string) :
  str_in needle hay = true <-> occurs_in needle hay.
Proof.
  unfold occurs_in. split.
  - induction hay as [|a hay IH]; rewrite str_in_unfold;
      destruct (starts_with needle _) eqn:Hpre.
    + intros _. apply starts_with_spec in Hpre as [post ->].
      now exists EmptyString, post.
    + discriminate.
    + intros _. apply starts_with_spec in Hpre as [post ->].
      now exists EmptyString, post.
    + intros Hin. destruct (IH Hin) as (pre & post & ->).
      now exists (String a pre), post.
  - intros (pre & post & ->). induction pre as [|a pre IH].
    + cbn [append]. rewrite str_in_unfold.
      assert (starts_with needle (needle ++ post) = true) as ->; [|reflexivity].
      apply starts_with_spec. now exists post.
    + cbn [append]. rewrite str_in_unfold.
      destruct (starts_with needle _); [reflexivity | exact IH].
Qed.

(** A turn of the loop that raises has printed no label: nothing at all
    without [verbose], at most the separator with it. *)
Lemma body_raise_output (m : num) (v : bool) (f : FaceImage) (w : world) (e : exn) :
  fst (detect_facemask_body m v f w) = Raise e ->
  printed w (snd (detect_facemask_body m v f w)) [] \/
  (v = true /\ printed w (snd (detect_facemask_body m v f w)) [Text separator]).
Proof.
  unfold printed, separator.
  run_body w; try discriminate; intros _;
    first [ left; now rewrite app_nil_r | right; now split ].
Qed.

(** What a turn of the loop prints when the engine answers [x]. *)
Lemma body_output (m : num) (v : bool) (f : FaceImage) (w : world)
    (x : num) (row : list num) (rows : list (list num)) :
  constructed (self w) ->
  network (mask_model (self w)) f = Some ((x :: row) :: rows) ->
  printed w (snd (detect_facemask_body m v f w))
    ((if v
      then [Text separator; Fmt "Probability of wearing mask: " (sub (lit 1) x)]
      else []) ++
     [Text (if geb (sub (lit 1) x) m then WEARING_MASK else NO_MASK)]).
Proof.
  intros [Hin Hout] Hnet. unfold printed, separator. break_world w.
  cbv [get_input_details get_output_details] in Hin, Hout.
  cbn in Hin, Hout, Hnet. subst ind outd.
  run. repeat (first [rewrite Nat.eqb_refl | rewrite Hnet]; run).
  destruct v; run; destruct (geb (sub (lit 1) x) m); run;
    rewrite <- ?app_assoc; reflexivity.
Qed.

(** A turn of the loop reads the configuration only: two worlds that differ
    in [labels], [colors], the tensor buffers and the output so far give the
    same outcome, append the same label and color and print the same
    lines. *)
Lemma body_config_only (m : num) (v : bool) (f : FaceImage) (w1 w2 : world) :
  same_config (self w1) (self w2) ->
  fst (detect_facemask_body m v f w2) = fst (detect_facemask_body m v f w1) /\
  exists (ls : list string) (cs : list color) (lines : list out_line),
    labels (self (snd (detect_facemask_body m v f w1))) =
      (labels (self w1) ++ ls)%list /\
    labels (self (snd (detect_facemask_body m v f w2))) =
      (labels (self w2) ++ ls)%list /\
    colors (self (snd (detect_facemask_body m v f w1))) =
      (colors (self w1) ++ cs)%list /\
    colors (self (snd (detect_facemask_body m v f w2))) =
      (colors (self w2) ++ cs)%list /\
    printed w1 (snd (detect_facemask_body m v f w1)) lines /\
    printed w2 (snd (detect_facemask_body m v f w2)) lines.
Proof.
  intros Hcfg. unfold printed. break_world w1. break_world w2.
  cbv [same_config] in Hcfg. cbn in Hcfg.
  destruct Hcfg as (-> & -> & -> & -> & -> & -> & -> & ->).
  run; repeat step; (split; [reflexivity|]).
  all: rewrite <- ?app_assoc.
  all: first
    [ exists [], [], []; rewrite !app_nil_r; repeat split; reflexivity
    | do 3 eexists; repeat split; try reflexivity;
      rewrite ?app_nil_r; reflexivity ].
Qed.

(** ** Further properties of [detect_facemask] *)

Lemma printed_cleared (w w' : world) (lines : list out_line) :
  printed (cleared w) w' lines -> printed w w' lines.
Proof. exact (fun H => H). Qed.

Lemma detect_facemask_raise_empty (m : option num) (v : option bool)
    (w : world) (e : exn) :
  fst (detect_facemask m v w) = Raise e ->
  labels (self (snd (detect_facemask m v w))) = [] /\
  colors (self (snd (detect_facemask m v w))) = [].
Proof.
  intros Hraise.
  destruct (faces (self w)) as [|f rest] eqn:Hfaces.
  - now rewrite (detect_facemask_nil m v w Hfaces).
  - destruct (detect_facemask_first m v w f rest Hfaces) as [Hsnd Hout].
    rewrite Hsnd.
    destruct Hout as [(b & Hr & _)|(e' & Hr & Hb)]; [congruence|].
    pose proof (body_cases (kwarg m (lit 0.995)) (kwarg v false) f (cleared w)) as Hc.
    destruct (detect_facemask_body _ _ f (cleared w)) as [[[|b]|e0] w'];
      cbn [fst snd] in *; try discriminate.
    exact Hc.
Qed.

(** X1. A call of [detect_facemask] that raises leaves [labels] and [colors]
    empty, whatever they held before, and has printed no label: nothing
    without [verbose], at most the separator line with it. *)
Theorem detect_facemask_raise_leaves_nothing (m : option num) (v : option bool)
    (w : world) (e : exn) :
  fst (detect_facemask m v w) = Raise e ->
  labels (self (snd (detect_facemask m v w))) = [] /\
  colors (self (snd (detect_facemask m v w))) = [] /\
  (printed w (snd (detect_facemask m v w)) [] \/
   (kwarg v false = true /\
    printed w (snd (detect_facemask m v w)) [Text separator])).
Proof.
  intros Hraise.
  destruct (faces (self w)) as [|f rest] eqn:Hfaces.
  - rewrite (detect_facemask_nil m v w Hfaces) in Hraise. discriminate.
  - destruct (detect_facemask_first m v w f rest Hfaces) as [Hsnd Hout].
    rewrite Hsnd.
    destruct Hout as [(b & Hr & _)|(e' & Hr & Hb)]; [congruence|].
    pose proof (body_cases (kwarg m (lit 0.995)) (kwarg v false) f (cleared w)) as Hc.
    pose proof (body_raise_output (kwarg m (lit 0.995)) (kwarg v false) f
                  (cleared w) e' Hb) as Hp.
    destruct (detect_facemask_body _ _ f (cleared w)) as [[[|b]|e0] w'];
      cbn [fst snd] in *; try discriminate.
    destruct Hc as [-> ->]. repeat split.
    destruct Hp as [Hp|[Hv Hp]]; [left | right; split; [exact Hv|]];
      exact (printed_cleared _ _ _ Hp).
Qed.

(** X2. What [detect_facemask] returns.  It returns [None] exactly when
    there is no face.  When it returns a boolean it has left exactly one
    label with its color, and the boolean says whether that label is
    "Wearing Mask". *)
Theorem detect_facemask_returns (m : option num) (v : option bool) (w : world) :
  (fst (detect_facemask m v w) = Normal None <-> faces (self w) = []) /\
  (forall b : bool,
     fst (detect_facemask m v w) = Normal (Some b) ->
     exists (l : string) (c : color),
       labels (self (snd (detect_facemask m v w))) = [l] /\
       colors (self (snd (detect_facemask m v w))) = [c] /\
       paired l c /\
       (b = true <-> l = "Wearing Mask")).
Proof.
  destruct (faces (self w)) as [|f rest] eqn:Hfaces.
  - rewrite (detect_facemask_nil m v w Hfaces). cbn [fst]. split.
    + now split.
    + intros b Hb. discriminate.
  - destruct (detect_facemask_first m v w f rest Hfaces) as [Hsnd Hout].
    rewrite Hsnd.
    pose proof (body_cases (kwarg m (lit 0.995)) (kwarg v false) f (cleared w)) as Hc.
    destruct (detect_facemask_body _ _ f (cleared w)) as [[[|b0]|e0] w'];
      cbn [fst snd] in *; [contradiction| |].
    + destruct Hout as [(b & Hr & Hb)|(e & Hr & Hb)]; [|discriminate].
      injection Hb as <-. rewrite Hr. split.
      * split; discriminate.
      * intros b' Hb'. injection Hb' as <-.
        destruct Hc as (l & c & Hpair & Hb0 & Hl & Hc).
        exists l, c. repeat split; try assumption.
        -- intros ->. destruct Hpair as [[-> _]|[-> _]]; [reflexivity|].
           discriminate.
        -- intros ->. exact Hb0.
    + destruct Hout as [(b & Hr & Hb)|(e & Hr & Hb)]; [discriminate|].
      rewrite Hr. split; [split; discriminate | intros b'; discriminate].
Qed.

(** X3. A call of [detect_facemask] depends on the configuration only:
    started with other [labels] and [colors], other contents of the tensor
    buffers and other output so far, it ends the same way, leaves the same
    labels and colors and prints the same lines. *)
Theorem detect_facemask_config_only (m : option num) (v : option bool)
    (w1 w2 : world) :
  same_config (self w1) (self w2) ->
  fst (detect_facemask m v w2) = fst (detect_facemask m v w1) /\
  labels (self (snd (detect_facemask m v w2))) =
    labels (self (snd (detect_facemask m v w1))) /\
  colors (self (snd (detect_facemask m v w2))) =
    colors (self (snd (detect_facemask m v w1))) /\
  exists lines : list out_line,
    printed w1 (snd (detect_facemask m v w1)) lines /\
    printed w2 (snd (detect_facemask m v w2)) lines.
Proof.
  intros Hcfg.
  assert (faces (self w2) = faces (self w1)) as Hfs by apply Hcfg.
  destruct (faces (self w1)) as [|f rest] eqn:Hfaces.
  - rewrite (detect_facemask_nil m v w1 Hfaces), (detect_facemask_nil m v w2 Hfs).
    repeat split. exists []. unfold printed. split; now rewrite app_nil_r.
  - destruct (detect_facemask_first m v w1 f rest Hfaces) as [Hs1 Ho1].
    destruct (detect_facemask_first m v w2 f rest Hfs) as [Hs2 Ho2].
    assert (same_config (self (cleared w1)) (self (cleared w2))) as Hcfg'.
    { exact Hcfg. }
    destruct (body_config_only (kwarg m (lit 0.995)) (kwarg v false) f
                (cleared w1) (cleared w2) Hcfg')
      as (Hfst & ls & cs & lines & Hl1 & Hl2 & Hc1 & Hc2 & Hp1 & Hp2).
    rewrite Hs1, Hs2, Hl1, Hl2, Hc1, Hc2. repeat split.
    + rewrite Hfst in Ho2.
      destruct Ho1 as [(b & Hr & Hb)|(e & Hr & Hb)];
        destruct Ho2 as [(b' & Hr' & Hb')|(e' & Hr' & Hb')];
        rewrite Hr, Hr'; congruence.
    + exists lines. split; apply printed_cleared; assumption.
Qed.

(** X4. What [detect_facemask] prints when the engine answers [x] for the
    first face: the label on a line of its own, and with [verbose] before it
    a separator of a hundred dashes and the probability [1 - x] of wearing a
    mask. *)
Theorem detect_facemask_output (m : option num) (v : option bool) (w : world)
    (f : FaceImage) (rest : list FaceImage)
    (x : num) (row : list num) (rows : list (list num)) :
  faces (self w) = f :: rest ->
  constructed (self w) ->
  network (mask_model (self w)) f = Some ((x :: row) :: rows) ->
  printed w (snd (detect_facemask m v w))
    ((if kwarg v false
      then [Text separator; Fmt "Probability of wearing mask: " (sub (lit 1) x)]
      else []) ++
     [Text (if geb (sub (lit 1) x) (kwarg m (lit 0.995))
            then "Wearing Mask" else "No Mask")]) /\
  separator = string_of_list_ascii (List.repeat "-"%char 100).
Proof.
  intros Hfaces Hcon Hnet.
  destruct (detect_facemask_first m v w f rest Hfaces) as [Hsnd _].
  rewrite Hsnd. split; [|reflexivity].
  apply printed_cleared.
  exact (body_output (kwarg m (lit 0.995)) (kwarg v false) f (cleared w)
           x row rows Hcon Hnet).
Qed.

Section Monotone.

Context {L : ScalarLaws SC}.



End Monotone.

(** ** Invariants of computations *)

Lemma preserves_ret {W A} (I : W -> Prop) (a : A) : preserves I (ret a).
Proof. intros w Hw. exact Hw. Qed.

Lemma preserves_bind {W A B} (I : W -> Prop) (m : M W A) (k : A -> M W B) :
  preserves I m -> (forall a, preserves I (k a)) -> preserves I (bind m k).
Proof.
  intros Hm Hk w Hw. unfold bind. specialize (Hm w Hw).
  destruct (m w) as [[a|e] w']; cbn [snd] in *; [now apply Hk | exact Hm].
Qed.

Lemma bind_inv_normal {W A B} (m : M W A) (k : A -> M W B) (w w' : W) (b : B) :
  bind m k w = (Normal b, w') ->
  exists (a : A) (w1 : W), m w = (Normal a, w1) /\ k a w1 = (Normal b, w').
Proof.
  unfold bind. destruct (m w) as [[a|e] w1]; [|discriminate].
  intros Hk. now exists a, w1.
Qed.

Lemma preserves_for_in {W A R} (I : W -> Prop) (xs : list A)
    (body : A -> M W (flow R)) :
  (forall x, preserves I (body x)) -> preserves I (for_in xs body).
Proof.
  intros Hbody. induction xs as [|x xs IH]; [apply preserves_ret|].
  cbn [for_in]. apply preserves_bind; [apply Hbody|].
  intros [|r]; [exact IH | apply preserves_ret].
Qed.

(** Whatever a call of [detect_facemask] does, it leaves paired results of
    at most one face. *)
Lemma detect_facemask_results_paired (m : option num) (v : option bool) (w : world) :
  results_paired (snd (detect_facemask m v w)).
Proof.
  unfold results_paired.
  destruct (faces (self w)) as [|f rest] eqn:Hfaces.
  - rewrite (detect_facemask_nil m v w Hfaces). cbn. split; [constructor | lia].
  - destruct (detect_facemask_first m v w f rest Hfaces) as [Hsnd _].
    rewrite Hsnd.
    pose proof (body_cases (kwarg m (lit 0.995)) (kwarg v false) f (cleared w)) as Hb.
    destruct (detect_facemask_body _ _ f (cleared w)) as [[[|b]|e] w'];
      [contradiction| |]; cbn [snd].
    + destruct Hb as (l & c & Hpair & _ & Hl & Hc).
      rewrite Hl, Hc, cleared_labels, cleared_colors. cbn [app List.length].
      split; [|lia]. apply Forall2_cons; [exact Hpair | apply Forall2_nil].
    + destruct Hb as [Hl Hc].
      rewrite Hl, Hc, cleared_labels, cleared_colors. cbn.
      split; [constructor | lia].
Qed.

Lemma results_paired_shape (w : world) :
  results_paired w ->
  (labels (self w) = [] /\ colors (self w) = []) \/
  (labels (self w) = [WEARING_MASK] /\ colors (self w) = [DARK_GREEN]) \/
  (labels (self w) = [NO_MASK] /\ colors (self w) = [RED_ORANGE]).
Proof.
  intros [Hpair Hlen].
  destruct Hpair as [|l c ls cs Hlc Hrest]; [now left|].
  destruct Hrest; [|cbn in Hlen; lia].
  destruct Hlc as [[-> ->]|[-> ->]]; auto.
Qed.

Section Wrappers.

Variable capture_frame_and_load_image : Base -> outcome unit * Base.
Variable detect_faces : num -> Base -> outcome (list FaceImage) * Base.
Variable draw_boxes_around_faces :
  list string -> list color -> Base -> outcome unit * Base.
Context {Frame : Type}.
Variable vs_read : Base -> outcome Frame * Base.
Variable resize : Frame -> Z -> outcome Frame.
Variable load_image_from_frame : Frame -> Base -> outcome unit * Base.
Variable waitKey : Z -> Base -> outcome Z * Base.
Variable imshow_image : string -> Base -> outcome unit * Base.
Variable destroyAllWindows : Base -> outcome unit * Base.

Local Abbreviation capture :=
  (capture_frame_and_detect_facemask capture_frame_and_load_image
     detect_faces draw_boxes_around_faces).
Local Abbreviation iteration :=
  (live_iteration detect_faces draw_boxes_around_faces vs_read resize
     load_image_from_frame waitKey imshow_image).
Local Abbreviation loop :=
  (live_loop detect_faces draw_boxes_around_faces vs_read resize
     load_image_from_frame waitKey imshow_image).
Local Abbreviation live :=
  (capture_frame_and_detect_facemask_live detect_faces draw_boxes_around_faces
     vs_read resize load_image_from_frame waitKey imshow_image
     destroyAllWindows).

(** *** The single-frame path, step by step *)

Lemma capture_cases (m fp : option num) (v : option bool) (w : world) :
  let r := capture m fp v w in
  match capture_frame_and_load_image (base (self w)) with
  | (Raise e, b1) => r = (Raise e, on_self (with_base b1) w)
  | (Normal _, b1) =>
      match detect_faces (kwarg fp (lit 0.9)) b1 with
      | (Raise e, b2) => r = (Raise e, on_self (with_base b2) w)
      | (Normal fs, b2) =>
          match detect_facemask (Some (kwarg m (lit 0.995)))
                  (Some (kwarg v false))
                  (on_self (with_faces fs) (on_self (with_base b2) w)) with
          | (Raise e, w3) => r = (Raise e, w3)
          | (Normal _, w3) =>
              match draw_boxes_around_faces (labels (self w3))
                      (colors (self w3)) (base (self w3)) with
              | (Raise e, b3) => r = (Raise e, on_self (with_base b3) w3)
              | (Normal _, b3) =>
                  r = (Normal (existsb (str_in "Wearing Mask")
                                 (labels (self w3))),
                       on_self (with_base b3) w3)
              end
          end
      end
  end.
Proof.
  cbv zeta. unfold capture_frame_and_detect_facemask. cbv zeta.
  destruct (capture_frame_and_load_image (base (self w))) as [[u|e] b1] eqn:Hcap.
  2:{ apply bind_raise. unfold base_do. now rewrite Hcap. }
  assert (base_do capture_frame_and_load_image w =
          (Normal u, on_self (with_base b1) w)) as H1.
  { unfold base_do. now rewrite Hcap. }
  rewrite (bind_normal _ _ _ _ _ H1).
  destruct (detect_faces (kwarg fp (lit 0.9)) b1) as [[fs|e] b2] eqn:Hdet.
  2:{ apply bind_raise. unfold self_detect_faces, bind, base_do.
      cbn [self base on_self with_base]. now rewrite Hdet. }
  assert (self_detect_faces detect_faces (kwarg fp (lit 0.9))
            (on_self (with_base b1) w) =
          (Normal tt, on_self (with_faces fs) (on_self (with_base b2) w))) as H2.
  { unfold self_detect_faces, bind, base_do.
    cbn [self base on_self with_base]. now rewrite Hdet. }
  rewrite (bind_normal _ _ _ _ _ H2).
  destruct (detect_facemask _ _ (on_self (with_faces fs) (on_self (with_base b2) w)))
    as [[b|e] w3] eqn:E3.
  2:{ now apply bind_raise. }
  rewrite (bind_normal _ _ _ _ _ E3).
  destruct (draw_boxes_around_faces (labels (self w3)) (colors (self w3))
              (base (self w3))) as [[u'|e] b3] eqn:Hdraw.
  2:{ apply bind_raise. unfold self_draw_boxes_around_faces, bind, attr, base_do.
      now rewrite Hdraw. }
  assert (self_draw_boxes_around_faces draw_boxes_around_faces w3 =
          (Normal u', on_self (with_base b3) w3)) as H4.
  { unfold self_draw_boxes_around_faces, bind, attr, base_do. now rewrite Hdraw. }
  rewrite (bind_normal _ _ _ _ _ H4).
  rewrite (bind_normal (attr labels) _ _ _ _ eq_refl).
  rewrite (bind_normal _ _ _ _ _ (summary_loop _ _)).
  cbn [self labels on_self with_base].
  destruct (existsb _ _); reflexivity.
Qed.

(** X6. When [capture_frame_and_detect_facemask] returns, the boolean is
    read off the labels [get_labels] shows afterwards: there is at most one
    label, the call returns [True] exactly when some label contains
    "Wearing Mask", which is exactly when the labels are ["Wearing Mask"]. *)
Theorem capture_returns_what_get_labels_shows (m fp : option num)
    (v : option bool) (w : world) (b : bool) :
  fst (capture m fp v w) = Normal b ->
  exists ls : list string,
    get_labels (snd (capture m fp v w)) = (Normal ls, snd (capture m fp v w)) /\
    (List.length ls <= 1)%nat /\
    (b = true <-> Exists (occurs_in "Wearing Mask") ls) /\
    (b = true <-> ls = ["Wearing Mask"]) /\
    (b = false <-> ls = [] \/ ls = ["No Mask"]).
Proof.
  intros Hret. exists (labels (self (snd (capture m fp v w)))).
  split; [reflexivity|].
  pose proof (capture_cases m fp v w) as Hc. cbv zeta in Hc.
  destruct (capture_frame_and_load_image (base (self w))) as [[u|e] b1];
    [|rewrite Hc in Hret; discriminate].
  destruct (detect_faces (kwarg fp (lit 0.9)) b1) as [[fs|e] b2];
    [|rewrite Hc in Hret; discriminate].
  pose proof (detect_facemask_results_paired (Some (kwarg m (lit 0.995)))
                (Some (kwarg v false))
                (on_self (with_faces fs) (on_self (with_base b2) w))) as Hp.
  destruct (detect_facemask _ _ (on_self (with_faces fs) (on_self (with_base b2) w)))
    as [[b'|e] w3]; [|rewrite Hc in Hret; discriminate].
  cbn [snd] in Hp.
  destruct (draw_boxes_around_faces _ _ (base (self w3))) as [[u'|e] b3];
    [|rewrite Hc in Hret; discriminate].
  rewrite Hc in Hret |- *. cbn [fst snd self labels on_self with_base] in *.
  injection Hret as <-.
  split; [apply Hp|]. split.
  - rewrite Exists_exists, existsb_exists.
    split; intros (l & Hin & Hl); exists l; (split; [exact Hin|]);
      now apply str_in_spec.
  - destruct (results_paired_shape w3 Hp) as [[-> _]|[[-> _]|[-> _]]];
      cbv [WEARING_MASK NO_MASK]; cbn [existsb]; decide_str_in; cbn [orb];
      (split; split; intros H); try discriminate H; try reflexivity;
      try (destruct H as [H|H]; discriminate H); auto.
Qed.

(** X7. [capture_frame_and_detect_facemask] catches nothing.  An exception
    of the frame grab or of the face detector ends the call before
    [detect_facemask] runs, so the labels, colors and faces of the earlier
    frame and the engine stay as they were; an exception of
    [detect_facemask] ends it before anything is drawn. *)
Theorem capture_propagates (m fp : option num) (v : option bool) (w : world)
    (e : exn) :
  (forall b1,
     capture_frame_and_load_image (base (self w)) = (Raise e, b1) ->
     capture m fp v w = (Raise e, on_self (with_base b1) w)) /\
  (forall u b1 b2,
     capture_frame_and_load_image (base (self w)) = (Normal u, b1) ->
     detect_faces (kwarg fp (lit 0.9)) b1 = (Raise e, b2) ->
     capture m fp v w = (Raise e, on_self (with_base b2) w)) /\
  (forall u b1 fs b2,
     capture_frame_and_load_image (base (self w)) = (Normal u, b1) ->
     detect_faces (kwarg fp (lit 0.9)) b1 = (Normal fs, b2) ->
     let r2 := detect_facemask (Some (kwarg m (lit 0.995))) (Some (kwarg v false))
                 (on_self (with_faces fs) (on_self (with_base b2) w)) in
     fst r2 = Raise e ->
     capture m fp v w = (Raise e, snd r2) /\
     base (self (snd r2)) = b2 /\
     labels (self (snd r2)) = [] /\ colors (self (snd r2)) = []).
Proof.
  pose proof (capture_cases m fp v w) as Hc. cbv zeta in Hc.
  split; [|split].
  - intros b1 Hcap. now rewrite Hcap in Hc.
  - intros u b1 b2 Hcap Hdet. now rewrite Hcap, Hdet in Hc.
  - intros u b1 fs b2 Hcap Hdet r2 Hraise. subst r2.
    rewrite Hcap, Hdet in Hc.
    destruct (detect_facemask_raise_empty _ _ _ e Hraise) as [Hl Hcs].
    pose proof (detect_facemask_writes_only (Some (kwarg m (lit 0.995)))
                  (Some (kwarg v false))
                  (on_self (with_faces fs) (on_self (with_base b2) w)))
      as [(Hbase & _) _].
    repeat split; try assumption.
    revert Hraise Hc.
    destruct (detect_facemask _ _ _) as [[b'|e'] w3]; cbn [fst snd];
      [discriminate|]. now intros [= ->].
Qed.

(** X8. A frame without faces: when the face detector finds none and the
    collaborators do not fail, [capture_frame_and_detect_facemask] returns
    [False], leaves [labels] and [colors] empty, prints nothing and does not
    touch the engine; the renderer is handed the empty lists. *)
Theorem capture_no_faces (m fp : option num) (v : option bool) (w : world)
    (u u' : unit) (b1 b2 b3 : Base) :
  capture_frame_and_load_image (base (self w)) = (Normal u, b1) ->
  detect_faces (kwarg fp (lit 0.9)) b1 = (Normal [], b2) ->
  draw_boxes_around_faces [] [] b2 = (Normal u', b3) ->
  let r := capture m fp v w in
  fst r = Normal false /\
  labels (self (snd r)) = [] /\
  colors (self (snd r)) = [] /\
  faces (self (snd r)) = [] /\
  base (self (snd r)) = b3 /\
  stdout (snd r) = stdout w /\
  mask_model (self (snd r)) = mask_model (self w).
Proof.
  intros Hcap Hdet Hdraw. cbv zeta.
  pose proof (capture_cases m fp v w) as Hc. cbv zeta in Hc.
  rewrite Hcap, Hdet in Hc.
  rewrite (detect_facemask_nil _ _
             (on_self (with_faces []) (on_self (with_base b2) w)) eq_refl) in Hc.
  cbn [cleared self labels colors base on_self with_colors with_labels
       with_faces with_base] in Hc.
  rewrite Hdraw in Hc. rewrite Hc. now repeat split.
Qed.

(** *** Invariants of the two paths *)

Section Kept.

Variable I : world -> Prop.
Hypothesis I_base : forall w b, I w -> I (on_self (with_base b) w).
Hypothesis I_faces : forall w fs, I w -> I (on_self (with_faces fs) w).
Hypothesis I_detect : forall m v, preserves I (detect_facemask m v).

Lemma preserves_base_do {A} (f : Base -> outcome A * Base) :
  preserves I (base_do f).
Proof.
  intros w Hw. unfold base_do.
  destruct (f (base (self w))) as [r b]. now apply I_base.
Qed.

Lemma preserves_self_detect_faces (p : num) :
  preserves I (self_detect_faces detect_faces p).
Proof.
  apply preserves_bind; [apply preserves_base_do|].
  intros fs w Hw. now apply I_faces.
Qed.

Lemma preserves_self_draw :
  preserves I (self_draw_boxes_around_faces draw_boxes_around_faces).
Proof.
  apply preserves_bind; [now intros w Hw|]. intros ls.
  apply preserves_bind; [now intros w Hw|]. intros cs.
  apply preserves_base_do.
Qed.

Lemma preserves_capture (m fp : option num) (v : option bool) :
  preserves I (capture m fp v).
Proof.
  unfold capture_frame_and_detect_facemask. cbv zeta.
  apply preserves_bind; [apply preserves_base_do|]. intros _.
  apply preserves_bind; [apply preserves_self_detect_faces|]. intros _.
  apply preserves_bind; [apply I_detect|]. intros _.
  apply preserves_bind; [apply preserves_self_draw|]. intros _.
  apply preserves_bind; [now intros w Hw|]. intros ls.
  apply preserves_bind; [|intros [b|]; apply preserves_ret].
  apply preserves_for_in. intros l.
  destruct (str_in "Wearing Mask" l); apply preserves_ret.
Qed.

Lemma preserves_iteration (m fp : num) (v : bool) :
  preserves I (iteration m fp v).
Proof.
  unfold live_iteration.
  apply preserves_bind; [apply preserves_base_do|]. intros frame.
  apply preserves_bind; [now intros w Hw|]. intros frame'.
  apply preserves_bind; [apply preserves_base_do|]. intros _.
  apply preserves_bind; [apply preserves_self_detect_faces|]. intros _.
  apply preserves_bind; [apply I_detect|]. intros _.
  apply preserves_bind; [apply preserves_self_draw|]. intros _.
  apply preserves_bind; [apply preserves_base_do|]. intros k.
  cbv zeta.
  apply preserves_bind; [apply preserves_base_do|]. intros _.
  apply preserves_ret.
Qed.

Lemma preserves_loop (fuel : nat) (m fp : num) (v : bool) :
  preserves I (loop fuel m fp v).
Proof.
  induction fuel as [|fuel IH]; [apply preserves_ret|].
  cbn [live_loop]. apply preserves_bind; [apply preserves_iteration|].
  intros [|]; [apply preserves_ret | exact IH].
Qed.

Lemma preserves_live (fuel : nat) (m fp : option num) (v : option bool) :
  preserves I (live fuel m fp v).
Proof.
  unfold capture_frame_and_detect_facemask_live. cbv zeta.
  apply preserves_bind; [apply preserves_loop|].
  intros [u|]; [|apply preserves_ret].
  apply preserves_bind; [apply preserves_base_do|]. intros _.
  apply preserves_ret.
Qed.

End Kept.

(** X9. The object stays as [__init__] builds it: [__init__] caches the
    tensor descriptors of its engine, and [detect_facemask],
    [capture_frame_and_detect_facemask] and the live loop, however they end
    and whatever the collaborators do, leave the cache in agreement with the
    engine. *)
Theorem constructed_kept :
  (forall (b : Base) (fs : list FaceImage) ls cs loc
          (it : @Interpreter num FaceImage),
     constructed (init b fs ls cs loc it)) /\
  (forall m v, preserves (fun w : world => constructed (self w))
                 (detect_facemask m v)) /\
  (forall m fp v, preserves (fun w : world => constructed (self w))
                    (capture m fp v)) /\
  (forall fuel m fp v, preserves (fun w : world => constructed (self w))
                         (live fuel m fp v)).
Proof.
  assert (forall m v, preserves (fun w : world => constructed (self w))
                        (detect_facemask m v)) as Hdet.
  { intros m v w [Hin Hout].
    destruct (detect_facemask_writes_only m v w)
      as [(_ & _ & _ & Hi & Ho & _ & Hii & Hoi) _].
    unfold constructed, get_input_details, get_output_details in *.
    now rewrite Hi, Ho, Hii, Hoi. }
  split; [now split|]. split; [exact Hdet|]. split.
  - intros m fp v. apply preserves_capture; auto.
  - intros fuel m fp v. apply preserves_live; auto.
Qed.

(** X10. Labels and colors stay paired along both paths: when they are
    paired and come from at most one face before a call of
    [capture_frame_and_detect_facemask] or of the live loop, they are so
    after it, however the call ends and whatever the collaborators do. *)
Theorem results_paired_kept :
  (forall m fp v, preserves results_paired (capture m fp v)) /\
  (forall fuel m fp v, preserves results_paired (live fuel m fp v)).
Proof.
  assert (forall m v, preserves (results_paired (num := num)
                                   (FaceImage := FaceImage) (Base := Base))
                        (detect_facemask m v)) as Hdet.
  { intros m v w _. apply detect_facemask_results_paired. }
  split.
  - intros m fp v. apply preserves_capture; auto.
  - intros fuel m fp v. apply preserves_live; auto.
Qed.

(** *** The live loop *)

Lemma low_byte (k : Z) : Z.land k 255 = (k mod 256)%Z.
Proof. change 255%Z with (Z.ones 8). now rewrite Z.land_ones. Qed.

Lemma iteration_key (m fp : num) (v : bool) (w : world) (stop : bool) :
  fst (iteration m fp v w) = Normal stop ->
  exists (k : Z) (b b' : Base),
    waitKey 1 b = (Normal k, b') /\ stop = Z.eqb (Z.land k 255) ord_q.
Proof.
  destruct (iteration m fp v w) as [o w'] eqn:H. cbn [fst]. intros ->.
  unfold live_iteration in H.
  do 6 (apply bind_inv_normal in H; destruct H as (? & ? & _ & H)).
  apply bind_inv_normal in H. destruct H as (k & w7 & Hkey & H).
  cbv zeta in H.
  apply bind_inv_normal in H. destruct H as (? & ? & _ & H).
  injection H as <- _.
  unfold base_do in Hkey.
  destruct (waitKey 1 (base (self _))) as [r b'] eqn:Hw.
  injection Hkey as -> _. exists k. do 2 eexists. split; [exact Hw | reflexivity].
Qed.


Lemma loop_needs_q (fuel : nat) (m fp : num) (v : bool) (w : world)
    (o : option unit) :
  (forall b k b', waitKey 1 b = (Normal k, b') -> (k mod 256 <> 113)%Z) ->
  fst (loop fuel m fp v w) = Normal o -> o = None.
Proof.
  intros Hkeys. revert w. induction fuel as [|fuel IH]; intros w.
  - cbn. congruence.
  - cbn [live_loop]. unfold bind.
    pose proof (iteration_key m fp v w) as Hkey.
    destruct (iteration m fp v w) as [[stop|e] w1]; [|discriminate].
    destruct (Hkey stop eq_refl) as (k & b & b' & Hk & ->).
    rewrite low_byte. unfold ord_q.
    destruct (Z.eqb_spec (k mod 256) 113) as [Heq|_]; [|apply IH].
    now destruct (Hkeys b k b' Hk).
Qed.

(** X12. The live loop has one way out: when no key whose low byte is 113
    is ever answered, a run of any number of frames ends in an exception or
    is still looping, and never gets to [cv2.destroyAllWindows]. *)
Theorem live_needs_q (fuel : nat) (m fp : option num) (v : option bool)
    (w : world) :
  (forall b k b', waitKey 1 b = (Normal k, b') -> (k mod 256 <> 113)%Z) ->
  (forall o, fst (live fuel m fp v w) = Normal o -> o = None) /\
  live fuel m fp v w =
  (let r := loop fuel (kwarg m (lit 0.975)) (kwarg fp (lit 0.9)) (kwarg v false) w in
   (match fst r with Normal _ => Normal None | Raise e => Raise e end, snd r)).
Proof.
  intros Hkeys. cbv zeta.
  unfold capture_frame_and_detect_facemask_live. cbv zeta. unfold bind.
  pose proof (loop_needs_q fuel (kwarg m (lit 0.975)) (kwarg fp (lit 0.9))
                (kwarg v false) w) as Hloop.
  destruct (loop fuel _ _ _ w) as [[o|e] w1]; cbn [fst snd] in *.
  - rewrite (Hloop o Hkeys eq_refl). cbn. split; [congruence | reflexivity].
  - split; [discriminate | reflexivity].
Qed.

(** X13. When the first frame asks for [break], the live loop processes
    that frame only, whatever the number of frames allowed, and then closes
    the windows; when the first frame raises, the exception ends the loop
    and the windows are not closed. *)
Theorem live_first_frame (fuel : nat) (m fp : option num) (v : option bool)
    (w : world) :
  let first := iteration (kwarg m (lit 0.975)) (kwarg fp (lit 0.9))
                 (kwarg v false) w in
  (fst first = Normal true ->
   live (S fuel) m fp v w =
   match destroyAllWindows (base (self (snd first))) with
   | (Normal _, b) => (Normal (Some tt), on_self (with_base b) (snd first))
   | (Raise e, b) => (Raise e, on_self (with_base b) (snd first))
   end) /\
  (forall e, fst first = Raise e ->
             live (S fuel) m fp v w = (Raise e, snd first)).
Proof.
  cbv zeta. unfold capture_frame_and_detect_facemask_live. cbv zeta.
  cbn [live_loop].
  destruct (iteration _ _ _ w) as [o w1] eqn:Hit. cbn [fst snd]. split.
  - intros ->. unfold bind at 1. unfold bind at 1. rewrite Hit.
    unfold ret at 1. unfold bind, base_do, ret.
    destruct (destroyAllWindows (base (self w1))) as [[u|e] b]; reflexivity.
  - intros e ->. unfold bind at 1. unfold bind at 1. now rewrite Hit.
Qed.

End Wrappers.

End Properties.

(** ** Runs of the rational detector *)

Import QScalar QScalarLaws Example.

(** The defaults of the three entry points that take [mask_probability]. *)
Lemma default_thresholds {num : Type} {SC : Scalar num}
    {FaceImage Base Frame : Type}
    (cap : Base -> outcome unit * Base)
    (det : num -> Base -> outcome (list FaceImage) * Base)
    (draw : list string -> list color -> Base -> outcome unit * Base)
    (rd : Base -> outcome Frame * Base) (rs : Frame -> Z -> outcome Frame)
    (ld : Frame -> Base -> outcome unit * Base)
    (wk : Z -> Base -> outcome Z * Base)
    (sh : string -> Base -> outcome unit * Base)
    (ds : Base -> outcome unit * Base)
    (fuel : nat) (fp : option num) (v : option bool) :
  @detect_facemask num SC FaceImage Base None v =
  detect_facemask (Some (lit 0.995)) v /\
  capture_frame_and_detect_facemask cap det draw None fp v =
  capture_frame_and_detect_facemask cap det draw (Some (lit 0.995)) fp v /\
  capture_frame_and_detect_facemask_live det draw rd rs ld wk sh ds fuel None fp v =
  capture_frame_and_detect_facemask_live det draw rd rs ld wk sh ds fuel
    (Some (lit 0.975)) fp v.
Proof. repeat split. Qed.

(** C2, at two faces.  The engine answers for both, yet the call returns
    after the first: two faces in, one label and one color out. *)
Theorem two_faces_one_label :
  let r := detect_facemask None None (ex_world [1; 2]%nat) in
  fst r = Normal (Some false) /\
  List.length (faces (self (snd r))) = 2%nat /\
  labels (self (snd r)) = ["No Mask"] /\
  colors (self (snd r)) = [(33, 33, 183)%Z].
Proof. vm_compute. repeat split. Qed.

(** C4, at three faces.  Taken one at a time the faces are labelled
    "No Mask", "Wearing Mask", "No Mask"; the single-frame path on the three
    together returns [False], with the one label "No Mask". *)
Theorem three_faces_summary_false :
  map (ex_label_alone 0.995) [1; 2; 3]%nat =
    [["No Mask"]; ["Wearing Mask"]; ["No Mask"]] /\
  let r := ex_capture_frame_and_detect_facemask [1; 2; 3]%nat None (ex_world []) in
  fst r = Normal false /\
  labels (self (snd r)) = ["No Mask"].
Proof. vm_compute. repeat split. Qed.

(** C8 as stated fails: a call overwrites the attributes [labels] and
    [colors] of the object. *)
Lemma detect_facemask_writes_labels :
  let w := ex_world_after [2]%nat in
  let w' := snd (detect_facemask None None w) in
  labels (self w') <> labels (self w) /\
  colors (self w') <> colors (self w).
Proof. vm_compute. split; discriminate. Qed.

(** C9, on the live path.  Its signature defaults [mask_probability] to
    0.975 where its docstring and the other two entry points say 0.995: a
    face with [1 - x = 0.98] is labelled "Wearing Mask" by the live path left
    to its default, and "No Mask" under 0.995. *)
Theorem live_default_is_0_975 :
  (forall fs w, ex_live fs None w = ex_live fs (Some 0.975%Q) w) /\
  ~ (0.975 == 0.995)%Q /\
  labels (self (snd (ex_live [4]%nat None (ex_world [])))) = ["Wearing Mask"] /\
  labels (self (snd (ex_live [4]%nat (Some 0.995%Q) (ex_world [])))) = ["No Mask"] /\
  labels (self (snd (detect_facemask None None (ex_world [4]%nat)))) = ["No Mask"].
Proof.
  split; [reflexivity|]. split; [discriminate|]. vm_compute. repeat split.
Qed.

(** *** The theorems at concrete inputs *)

Lemma first_face_decides_witness :
  let r := ex_capture_frame_and_detect_facemask [2; 1; 3]%nat None (ex_world []) in
  fst r = Normal true /\ labels (self (snd r)) = ["Wearing Mask"].
Proof.
  destruct (first_face_decides ex_capture (ex_detect_faces [2; 1; 3]%nat) ex_draw
              None None None (ex_world []) 2%nat [1; 3]%nat) as [_ H].
  apply (H 0.001%Q [] [] 1%nat 1%nat).
  - split; reflexivity.
  - reflexivity.
  - reflexivity.
  - reflexivity.
  - intros ls cs. reflexivity.
Defined.

Lemma label_rule_witness :
  exists l c,
    labels (self (snd (detect_facemask (Some 0.995%Q) None (ex_world [5; 1]%nat)))) = [l] /\
    colors (self (snd (detect_facemask (Some 0.995%Q) None (ex_world [5; 1]%nat)))) = [c] /\
    (l = "Wearing Mask" <-> geb (sub (lit 1) 0.005%Q) 0.995%Q = true) /\
    (l = "No Mask" <-> geb (sub (lit 1) 0.005%Q) 0.995%Q = false) /\
    (sub (lit 1) 0.005%Q = 0.995%Q -> l = "Wearing Mask") /\
    (c = (0, 102, 0)%Z <-> l = "Wearing Mask") /\
    (c = (33, 33, 183)%Z <-> l <> "Wearing Mask").
Proof.
  apply (label_rule 0.995%Q None (ex_world [5; 1]%nat) 5%nat [1%nat] 0.005%Q [] []).
  - reflexivity.
  - split; reflexivity.
  - reflexivity.
Defined.

Lemma detect_facemask_no_faces_witness :
  fst (detect_facemask None None (ex_world_after [])) = Normal None /\
  labels (self (snd (detect_facemask None None (ex_world_after [])))) = [] /\
  colors (self (snd (detect_facemask None None (ex_world_after [])))) = [] /\
  stdout (snd (detect_facemask None None (ex_world_after []))) = [] /\
  mask_model (self (snd (detect_facemask None None (ex_world_after [])))) = ex_engine.
Proof.
  apply (detect_facemask_no_faces None None (ex_world_after [])). reflexivity.
Defined.

Lemma threshold_not_validated_witness :
  labels (self (snd (detect_facemask (Some 1.5%Q) None (ex_world [2]%nat)))) = ["No Mask"] /\
  labels (self (snd (detect_facemask (Some (-0.5)%Q) None (ex_world [1]%nat)))) = ["Wearing Mask"].
Proof.
  split.
  - destruct (threshold_not_validated 1.5%Q None (ex_world [2]%nat)) as [_ H].
    destruct (H 2%nat [] 0.001%Q [] []) as (_ & Habove & _).
    + reflexivity.
    + split; reflexivity.
    + reflexivity.
    + apply Habove; reflexivity.
  - destruct (threshold_not_validated (-0.5)%Q None (ex_world [1]%nat)) as [_ H].
    destruct (H 1%nat [] 0.5%Q [] []) as (_ & _ & Hbelow).
    + reflexivity.
    + split; reflexivity.
    + reflexivity.
    + apply Hbelow; reflexivity.
Defined.

Lemma detect_facemask_frame_witness :
  same_config (self (ex_world_after [2; 1]%nat))
    (self (snd (detect_facemask None None (ex_world_after [2; 1]%nat)))) /\
  exists extra,
    stdout (snd (detect_facemask None None (ex_world_after [2; 1]%nat))) = extra /\
    Forall label_line extra.
Proof.
  destruct (detect_facemask_frame None None (ex_world_after [2; 1]%nat))
    as [Hcfg (extra & Hout & Hlines)].
  split; [exact Hcfg|]. exists extra. split; [exact Hout|].
  apply Hlines. reflexivity.
Defined.

(** ** Runs of the binary64 detector *)

(** With [p = 0.001] the face passes the default threshold, with [p = 0.5]
    it does not. *)
Lemma binary64_runs :
  let one := detect_facemask (SC := FloatScalar.float_scalar) None None in
  labels (self (snd (one (FloatExample.fl_world [2]%nat)))) = ["Wearing Mask"] /\
  colors (self (snd (one (FloatExample.fl_world [2]%nat)))) = [(0, 102, 0)%Z] /\
  labels (self (snd (one (FloatExample.fl_world [1]%nat)))) = ["No Mask"] /\
  colors (self (snd (one (FloatExample.fl_world [1]%nat)))) = [(33, 33, 183)%Z].
Proof. vm_compute. repeat split. Qed.

(** ** The further theorems at concrete inputs *)

Import Failing.

Lemma detect_facemask_raise_leaves_nothing_witness :
  let r := detect_facemask None (Some true) (ex_world_after [7; 1]%nat) in
  labels (self (snd r)) = [] /\
  colors (self (snd r)) = [] /\
  (printed (ex_world_after [7; 1]%nat) (snd r) [] \/
   (true = true /\ printed (ex_world_after [7; 1]%nat) (snd r) [Text separator])).
Proof.
  apply (detect_facemask_raise_leaves_nothing None (Some true)
           (ex_world_after [7; 1]%nat) RuntimeError).
  reflexivity.
Defined.

Lemma detect_facemask_returns_witness :
  exists (l : string) (c : color),
    labels (self (snd (detect_facemask None None (ex_world [1; 2]%nat)))) = [l] /\
    colors (self (snd (detect_facemask None None (ex_world [1; 2]%nat)))) = [c] /\
    paired l c /\
    (false = true <-> l = "Wearing Mask").
Proof.
  destruct (detect_facemask_returns None None (ex_world [1; 2]%nat)) as [_ H].
  apply (H false). reflexivity.
Defined.

Lemma detect_facemask_config_only_witness :
  let r1 := detect_facemask None None (ex_world [2; 1]%nat) in
  let r2 := detect_facemask None None (ex_world_after [2; 1]%nat) in
  fst r2 = fst r1 /\
  labels (self (snd r2)) = labels (self (snd r1)) /\
  colors (self (snd r2)) = colors (self (snd r1)) /\
  exists lines : list out_line,
    printed (ex_world [2; 1]%nat) (snd r1) lines /\
    printed (ex_world_after [2; 1]%nat) (snd r2) lines.
Proof.
  apply (detect_facemask_config_only None None
           (ex_world [2; 1]%nat) (ex_world_after [2; 1]%nat)).
  repeat split.
Defined.

Lemma detect_facemask_output_witness :
  printed (ex_world [2]%nat)
    (snd (detect_facemask None (Some true) (ex_world [2]%nat)))
    [Text separator; Fmt "Probability of wearing mask: " 0.999%Q;
     Text "Wearing Mask"] /\
  separator = string_of_list_ascii (List.repeat "-"%char 100).
Proof.
  exact (detect_facemask_output None (Some true) (ex_world [2]%nat)
           2%nat [] 0.001%Q [] [] eq_refl (conj eq_refl eq_refl) eq_refl).
Defined.


Lemma capture_returns_what_get_labels_shows_witness :
  let r := ex_capture_frame_and_detect_facemask [2; 1; 3]%nat None (ex_world []) in
  exists ls : list string,
    get_labels (snd r) = (Normal ls, snd r) /\
    (List.length ls <= 1)%nat /\
    (true = true <-> Exists (occurs_in "Wearing Mask") ls) /\
    (true = true <-> ls = ["Wearing Mask"]) /\
    (true = false <-> ls = [] \/ ls = ["No Mask"]).
Proof.
  apply (capture_returns_what_get_labels_shows ex_capture
           (ex_detect_faces [2; 1; 3]%nat) ex_draw None None None
           (ex_world []) true).
  reflexivity.
Defined.

Lemma capture_propagates_witness :
  fst (capture_frame_and_detect_facemask ex_capture_fails
         (ex_detect_faces [2]%nat) ex_draw None None None
         (ex_world_after [])) = Raise (ExternalError 1) /\
  fst (capture_frame_and_detect_facemask ex_capture
         ex_detect_faces_fails ex_draw None None None
         (ex_world_after [])) = Raise (ExternalError 2) /\
  capture_frame_and_detect_facemask ex_capture
    (ex_detect_faces [7]%nat) ex_draw None None None (ex_world_after []) =
  (Raise RuntimeError,
   snd (detect_facemask (Some 0.995%Q) (Some false)
          (on_self (with_faces [7]%nat)
             (on_self (with_base 1%nat) (ex_world_after []))))).
Proof.
  split; [|split].
  - destruct (capture_propagates ex_capture_fails (ex_detect_faces [2]%nat)
                ex_draw None None None (ex_world_after []) (ExternalError 1))
      as [H _].
    rewrite (H 0%nat); reflexivity.
  - destruct (capture_propagates ex_capture ex_detect_faces_fails
                ex_draw None None None (ex_world_after []) (ExternalError 2))
      as (_ & H & _).
    rewrite (H tt 1%nat 1%nat); reflexivity.
  - destruct (capture_propagates ex_capture (ex_detect_faces [7]%nat)
                ex_draw None None None (ex_world_after []) RuntimeError)
      as (_ & _ & H).
    apply (H tt 1%nat [7]%nat 1%nat); reflexivity.
Defined.

Lemma capture_no_faces_witness :
  let r := ex_capture_frame_and_detect_facemask [] None (ex_world_after []) in
  fst r = Normal false /\
  labels (self (snd r)) = [] /\
  colors (self (snd r)) = [] /\
  faces (self (snd r)) = [] /\
  base (self (snd r)) = 1%nat /\
  stdout (snd r) = [] /\
  mask_model (self (snd r)) = ex_engine.
Proof.
  apply (capture_no_faces ex_capture (ex_detect_faces []) ex_draw
           None None None (ex_world_after []) tt tt 1%nat 1%nat 1%nat);
    reflexivity.
Defined.

Lemma constructed_kept_witness :
  constructed
    (self (snd (ex_capture_frame_and_detect_facemask [2; 1]%nat None (ex_world [])))) /\
  constructed (self (snd (ex_live [4]%nat None (ex_world [])))).
Proof.
  destruct (constructed_kept ex_capture (ex_detect_faces [2; 1]%nat) ex_draw
              ex_vs_read ex_resize ex_load ex_waitKey ex_imshow ex_destroy)
    as (_ & _ & Hcap & _).
  destruct (constructed_kept ex_capture (ex_detect_faces [4]%nat) ex_draw
              ex_vs_read ex_resize ex_load ex_waitKey ex_imshow ex_destroy)
    as (_ & _ & _ & Hlive).
  split.
  - apply (Hcap None None None (ex_world [])). split; reflexivity.
  - apply (Hlive 10%nat None None None (ex_world [])). split; reflexivity.
Defined.

Lemma results_paired_kept_witness :
  results_paired
    (snd (capture_frame_and_detect_facemask ex_capture_fails
            (ex_detect_faces [2]%nat) ex_draw None None None (ex_world [2]%nat))) /\
  results_paired (snd (ex_live [4]%nat None (ex_world []))).
Proof.
  destruct (results_paired_kept ex_capture_fails (ex_detect_faces [2]%nat) ex_draw
              ex_vs_read ex_resize ex_load ex_waitKey ex_imshow ex_destroy)
    as [Hcap _].
  destruct (results_paired_kept ex_capture (ex_detect_faces [4]%nat) ex_draw
              ex_vs_read ex_resize ex_load ex_waitKey ex_imshow ex_destroy)
    as [_ Hlive].
  split.
  - apply (Hcap None None None (ex_world [2]%nat)).
    split; [constructor | cbn; lia].
  - apply (Hlive 10%nat None None None (ex_world [])).
    split; [constructor | cbn; lia].
Defined.


Lemma live_needs_q_witness :
  ex_live_keys ex_waitKey_idle 5 [2]%nat (ex_world []) =
  (let r := live_loop (ex_detect_faces [2]%nat) ex_draw ex_vs_read ex_resize
              ex_load ex_waitKey_idle ex_imshow 5 0.975%Q 0.9%Q false
              (ex_world []) in
   (match fst r with Normal _ => Normal None | Raise e => Raise e end, snd r)).
Proof.
  assert (forall (b : nat) (k : Z) (b' : nat),
            ex_waitKey_idle 1 b = (Normal k, b') -> (k mod 256 <> 113)%Z) as Hidle.
  { intros b k b' [= <- _]. discriminate. }
  destruct (live_needs_q (ex_detect_faces [2]%nat) ex_draw ex_vs_read ex_resize
              ex_load ex_waitKey_idle ex_imshow ex_destroy 5%nat None None None
              (ex_world []) Hidle) as [_ H].
  exact H.
Defined.

Lemma live_first_frame_witness :
  let first := ex_iteration ex_waitKey_q [2]%nat (ex_world []) in
  ex_live_keys ex_waitKey_q 5 [2]%nat (ex_world []) =
  match ex_destroy (base (self (snd first))) with
  | (Normal _, b) => (Normal (Some tt), on_self (with_base b) (snd first))
  | (Raise e, b) => (Raise e, on_self (with_base b) (snd first))
  end.
Proof.
  destruct (live_first_frame (ex_detect_faces [2]%nat) ex_draw ex_vs_read
              ex_resize ex_load ex_waitKey_q ex_imshow ex_destroy 4%nat
              None None None (ex_world [])) as [H _].
  apply H. reflexivity.
Defined.
